(** * Itinerary processing pipeline: a shallow embedding and its properties

    The development follows [src/lib/itinerary-processor.ts]: the row
    filter, the day grouper, the meal detector and the duration
    calculator.  JavaScript's dynamically typed cells, its exceptions, the
    object used as a map and the double-precision division of the duration
    calculator are modelled explicitly. *)

From Stdlib Require Import ZArith String Ascii List Bool Lia DecimalString.
From Stdlib.Floats Require Import SpecFloat.
From stdpp Require Import gmap strings list fin_maps.

Local Open Scope string_scope.
Local Open Scope Z_scope.
Local Open Scope list_scope.

(** ** JavaScript values and the runtime operations the module relies on *)

Module JS.

(** A spreadsheet cell has type [any].  The model covers the primitive
    values a grid loader produces.  Among the numbers it covers the safe
    integers: [Num n] stands for the JavaScript number [n] when
    [isSafeInteger n] holds, that is for [|n| <= 2^53 - 1], where every
    integer is a double of its own and [Number::toString], hence [String(n)]
    and the property key of [n], print its exact decimal digits.  Larger
    integers (shortest round-trip digits above 2^53, exponent form from
    1e21) and fractions are outside the model. *)
Inductive value : Type :=
| Undefined
| Null
| Bool (b : bool)
| Num (n : Z)
| Str (s : string).

Inductive error : Type :=
| TypeError (msg : string).

(** Completion of an evaluation: a value or a thrown exception. *)
Inductive completion (A : Type) : Type :=
| Normal (a : A)
| Throw (e : error).
Arguments Normal {A} a.
Arguments Throw {A} e.

Definition bind {A B} (c : completion A) (k : A -> completion B) : completion B :=
  match c with
  | Normal a => k a
  | Throw e => Throw e
  end.

(** [ToBoolean]: what [&&], [||] and [!] test. *)
Definition truthy (v : value) : bool :=
  match v with
  | Undefined | Null => false
  | Bool b => b
  | Num n => negb (n =? 0)%Z
  | Str s => negb (String.eqb s "")
  end.

(** [Number.isSafeInteger] on the integers: the range of [Num]. *)
Definition isSafeInteger (n : Z) : bool :=
  (- (2 ^ 53 - 1) <=? n) && (n <=? 2 ^ 53 - 1).

(** The cells of the model: every number a safe integer. *)
Definition inModel (cell : value) : bool :=
  match cell with
  | Num n => isSafeInteger n
  | _ => true
  end.

(** [Number::toString] on a safe integer: its decimal digits, with a minus
    sign below zero. *)
Definition Z_toString (n : Z) : string := NilZero.string_of_int (Z.to_int n).

(** [ToString]: [String(v)], template literals and property keys. *)
Definition ToString (v : value) : string :=
  match v with
  | Undefined => "undefined"
  | Null => "null"
  | Bool true => "true"
  | Bool false => "false"
  | Num n => Z_toString n
  | Str s => s
  end.

(** The method call [v.toString()]: reading a property of [undefined] or
    [null] throws. *)
Definition toString_method (v : value) : completion string :=
  match v with
  | Undefined => Throw (TypeError "Cannot read properties of undefined (reading 'toString')")
  | Null => Throw (TypeError "Cannot read properties of null (reading 'toString')")
  | _ => Normal (ToString v)
  end.

(** [arr[i]]: out of range reads give [undefined]. *)
Definition index (row : list value) (i : nat) : value := nth i row Undefined.

(** [arr.filter(f)] and [arr.forEach(f)] with a callback that may
    throw: the first exception aborts the traversal. *)
Fixpoint Array_filter {A} (f : A -> completion bool) (arr : list A) : completion (list A) :=
  match arr with
  | [] => Normal []
  | x :: arr' =>
      bind (f x) (fun keep =>
      bind (Array_filter f arr') (fun rest =>
      Normal (if keep then x :: rest else rest)))
  end.

Fixpoint Array_forEach {S A} (f : S -> A -> completion S) (arr : list A) (st : S) : completion S :=
  match arr with
  | [] => Normal st
  | x :: arr' => bind (f st x) (Array_forEach f arr')
  end.

(** An object literal [{}] used as a map.  Its own properties are a
    finite map from keys to values; a read that finds no own property
    continues in [Object.prototype], whose members are functions (or,
    for [__proto__], the prototype object itself). *)
Definition Object_prototype_keys : list string :=
  [ "constructor"; "hasOwnProperty"; "isPrototypeOf"; "propertyIsEnumerable";
    "toLocaleString"; "toString"; "valueOf"; "__proto__";
    "__defineGetter__"; "__defineSetter__"; "__lookupGetter__"; "__lookupSetter__" ].

Inductive property (A : Type) : Type :=
| Own (a : A)
| Inherited
| Missing.
Arguments Own {A} a.
Arguments Inherited {A}.
Arguments Missing {A}.

Definition Get {A} (obj : gmap string A) (key : string) : property A :=
  match obj !! key with
  | Some a => Own a
  | None => if bool_decide (key ∈ Object_prototype_keys) then Inherited else Missing
  end.

(** [set.add(x)] on an insertion-ordered [Set]. *)
Definition Set_add (set : list string) (x : string) : list string :=
  if bool_decide (x ∈ set) then set else set ++ [x].

(** *** Strings (code units below 256) *)

Definition code (c : ascii) : N := N_of_ascii c.

Definition isDigit (c : ascii) : bool := ((48 <=? code c) && (code c <=? 57))%N.

Definition digitValue (c : ascii) : Z := Z.of_N (code c) - 48.

(** White space and line terminators that [trim] strips. *)
Definition isWhiteSpace (c : ascii) : bool :=
  let n := code c in
  ((9 <=? n) && (n <=? 13) || (n =? 32) || (n =? 160))%N.

Fixpoint trimStart (s : string) : string :=
  match s with
  | String c s' => if isWhiteSpace c then trimStart s' else s
  | EmptyString => EmptyString
  end.

Fixpoint trimEnd (s : string) : string :=
  match s with
  | String c s' =>
      match trimEnd s' with
      | EmptyString => if isWhiteSpace c then EmptyString else String c EmptyString
      | t => String c t
      end
  | EmptyString => EmptyString
  end.

Definition trim (s : string) : string := trimEnd (trimStart s).

(** Lower-casing of one code unit: A-Z, and the Latin-1 capitals
    U+00C0-U+00DE except the multiplication sign U+00D7. *)
Definition lowerChar (c : ascii) : ascii :=
  let n := code c in
  if ((65 <=? n) && (n <=? 90) || (192 <=? n) && (n <=? 222) && negb (n =? 215))%N
  then ascii_of_N (n + 32)
  else c.

Fixpoint toLowerCase (s : string) : string :=
  match s with
  | String c s' => String (lowerChar c) (toLowerCase s')
  | EmptyString => EmptyString
  end.

(** [s.includes(k)]: [k] occurs in [s] as a contiguous substring. *)
Fixpoint includes (s k : string) : bool :=
  match s with
  | String _ s' => String.prefix k s || includes s' k
  | EmptyString => String.prefix k EmptyString
  end.

(** [parseInt(s, 10)] on a string of decimal digits (the only strings
    the time pattern captures): the positional value of the leading
    digits. *)
Fixpoint parseInt10_from (acc : Z) (s : string) : Z :=
  match s with
  | String c s' => if isDigit c then parseInt10_from (acc * 10 + digitValue c) s' else acc
  | EmptyString => acc
  end.

Definition parseInt10 (s : string) : Z := parseInt10_from 0 s.

(** *** Numbers: IEEE 754 binary64 *)

Definition number : Type := spec_float.

Definition Number_of_Z (z : Z) : number := binary_normalize 53 1024 z 0 false.

Definition Number_div (x y : number) : number := SFdiv 53 1024 x y.

(** [x >= y] *)
Definition Number_ge (x y : number) : bool := SFleb y x.

(** The integer a number denotes, if it denotes one: [x % 1 === 0]. *)
Definition integerValue (x : number) : option Z :=
  match x with
  | S754_zero _ => Some 0
  | S754_finite s m e =>
      let v := if s then Z.neg m else Z.pos m in
      if 0 <=? e then Some (v * 2 ^ e)
      else if Z.pos m mod 2 ^ (- e) =? 0 then Some (v / 2 ^ (- e))
      else None
  | _ => None
  end.

(** [Number.prototype.toFixed(1)]: the integer [n] with [n / 10] closest
    to the exact value of [x], the larger one on a tie, printed with a
    point before its last digit. *)
Definition nearestTenths (m : positive) (e : Z) : Z :=
  if 0 <=? e then 10 * Z.pos m * 2 ^ e
  else (20 * Z.pos m + 2 ^ (- e)) / (2 * 2 ^ (- e)).

Definition printTenths (n : Z) : string :=
  Z_toString (n / 10) +:+ "." +:+ Z_toString (n mod 10).

Definition toFixed1 (x : number) : string :=
  match x with
  | S754_zero _ => "0.0"
  | S754_finite s m e =>
      (if s then "-" else "") +:+ printTenths (nearestTenths m e)
  | S754_infinity s => if s then "-Infinity" else "Infinity"
  | S754_nan => "NaN"
  end.

End JS.

Notation "'do' x <- c ; k" := (JS.bind c (fun x => k))
  (at level 10, x name, c at level 100, k at level 200).

(** ** The itinerary processor *)

Module Processor.
Import JS.

Record ItineraryItem : Type := {
  timing : string;
  category : value;
  description : value
}.

(** *** Duration calculator *)

(** [timeStr.match(/^(\d{1,2}):(\d{2})$/)]: the two captured groups. *)
Definition isColon (c : ascii) : bool := (code c =? 58)%N.

Definition matchTime (timeStr : string) : option (string * string) :=
  match timeStr with
  | String h1 (String c (String m1 (String m2 EmptyString))) =>
      if isDigit h1 && isColon c && isDigit m1 && isDigit m2
      then Some (String h1 EmptyString, String m1 (String m2 EmptyString))
      else None
  | String h1 (String h2 (String c (String m1 (String m2 EmptyString)))) =>
      if isDigit h1 && isDigit h2 && isColon c && isDigit m1 && isDigit m2
      then Some (String h1 (String h2 EmptyString), String m1 (String m2 EmptyString))
      else None
  | _ => None
  end.

(** State of the [for ... of] loop: the [times] array and the lines
    written by [console.warn]. *)
Record loopState : Type := {
  times : list Z;
  console : list string
}.

Definition loopBody (st : loopState) (item : ItineraryItem) : loopState :=
  let timeStr := timing item in
  match matchTime timeStr with
  | None =>
      {| times := times st;
         console := console st ++ ["Invalid time format: " +:+ timeStr] |}
  | Some (g1, g2) =>
      let hours := parseInt10 g1 in
      let minutes := parseInt10 g2 in
      if (hours <? 0) || (hours >? 23) || (minutes <? 0) || (minutes >? 59)
      then {| times := times st;
              console := console st ++ ["Invalid time value: " +:+ timeStr] |}
      else {| times := times st ++ [hours * 60 + minutes];
              console := console st |}
  end.

Definition collectTimes (items : list ItineraryItem) : loopState :=
  fold_left loopBody items {| times := []; console := [] |}.

(** [Math.min(...ts)] and [Math.max(...ts)] on a non-empty array
    [t :: ts]. *)
Definition Math_min (t : Z) (ts : list Z) : Z := fold_left Z.min ts t.
Definition Math_max (t : Z) (ts : list Z) : Z := fold_left Z.max ts t.

(** [lastTime - firstTime], before the overnight adjustment. *)
Definition rawDifference (t : Z) (ts : list Z) : Z :=
  Math_max t ts - Math_min t ts.

Definition overnight (durationMinutes : Z) : Z :=
  if durationMinutes <? 0 then durationMinutes + 1440 else durationMinutes.

Definition formatDuration (durationMinutes : Z) : string :=
  let durationHours := Number_div (Number_of_Z durationMinutes) (Number_of_Z 60) in
  if Number_ge durationHours (Number_of_Z 24) then "Full day"
  else match integerValue durationHours with
       | Some n => Z_toString n +:+ " hours"
       | None => toFixed1 durationHours +:+ " hours"
       end.

Definition calculateDayDuration_run (items : list ItineraryItem) : string * list string :=
  match items with
  | [] => ("0 hours", [])
  | _ =>
      let st := collectTimes items in
      match times st with
      | [] => ("0 hours", console st)
      | t :: ts => (formatDuration (overnight (rawDifference t ts)), console st)
      end
  end.

Definition calculateDayDuration (items : list ItineraryItem) : string :=
  fst (calculateDayDuration_run items).

(** *** Meal detector *)

Definition mealKeywords : list string := ["breakfast"; "brunch"; "lunch"; "dinner"].

Definition detectMealsInItem (category description : value) : list string :=
  let text := toLowerCase (ToString category +:+ " " +:+ ToString description) in
  fold_left
    (fun detectedMeals keyword =>
       if includes text keyword then detectedMeals ++ [keyword] else detectedMeals)
    mealKeywords [].

(** *** Row filter and day grouper *)

Record DayData : Type := {
  day : value;
  city : value;
  date : value;
  items : list ItineraryItem;
  allMeals : list string
}.

Record ItineraryData : Type := {
  title : value;
  days : gmap string DayData
}.

(** [data[0]?.[1] || "Travel Itinerary"] *)
Definition tripTitle (data : list (list value)) : value :=
  let cell := match data with
              | [] => Undefined
              | row0 :: _ => index row0 1
              end in
  if truthy cell then cell else Str "Travel Itinerary".

(** The callback of [.filter]; [&&] evaluates its right operand only
    when the left one is truthy. *)
Definition rowFilter (row : list value) : completion bool :=
  if negb (truthy (index row 0)) then Normal false
  else if negb (truthy (index row 1)) then Normal false
  else if negb (truthy (index row 5)) then Normal false
  else
    do s0 <- toString_method (index row 0);
    if String.eqb (toLowerCase (trim s0)) "day" then Normal false
    else
      do s1 <- toString_method (index row 1);
      Normal (negb (String.eqb (toLowerCase (trim s1)) "city")).

Definition newItem (row : list value) : ItineraryItem :=
  {| timing := trim (ToString (index row 3));
     category := index row 4;
     description := index row 5 |}.

Definition newDay (row : list value) : DayData :=
  {| day := index row 0;
     city := index row 1;
     date := index row 2;
     items := [];
     allMeals := [] |}.

Definition pushItem (d : DayData) (item : ItineraryItem) : DayData :=
  {| day := day d; city := city d; date := date d;
     items := items d ++ [item];
     allMeals := allMeals d |}.

Definition addMeal (d : DayData) (meal : string) : DayData :=
  {| day := day d; city := city d; date := date d;
     items := items d;
     allMeals := Set_add (allMeals d) meal |}.

(** The callback of [.forEach], acting on the object [grouped]. *)
Definition groupRow (grouped : gmap string DayData) (row : list value)
  : completion (gmap string DayData) :=
  let key := ToString (index row 0) in
  (* if (!grouped[day]) grouped[day] = {...} *)
  let grouped1 :=
    match Get grouped key with
    | Missing => <[key := newDay row]> grouped
    | Own _ | Inherited => grouped
    end in
  (* grouped[day].items.push({...}) *)
  match Get grouped1 key with
  | Own d =>
      let d1 := pushItem d (newItem row) in
      (* detectMealsInItem(...).forEach(meal => grouped[day].allMeals.add(meal)) *)
      let d2 := fold_left addMeal (detectMealsInItem (index row 4) (index row 5)) d1 in
      Normal (<[key := d2]> grouped1)
  | Inherited | Missing =>
      Throw (TypeError "Cannot read properties of undefined (reading 'push')")
  end.

(** [data.slice(2).filter(...)] *)
Definition filteredRows (data : list (list value)) : completion (list (list value)) :=
  Array_filter rowFilter (drop 2 data).

Definition processItineraryData (data : list (list value)) : completion ItineraryData :=
  do rows <- filteredRows data;
  do grouped <- Array_forEach groupRow rows ∅;
  Normal {| title := tripTitle data; days := grouped |}.

End Processor.

(** ** Reference definitions, following the specification's wording *)

Module Reference.
Import JS Processor.

(** *** Row filter (section 4.1) *)

(** "non-empty (not null/undefined/empty string after implicit string
    coercion)" *)
Definition nonEmpty (cell : value) : bool :=
  match cell with
  | Undefined | Null => false
  | _ => negb (String.eqb (ToString cell) "")
  end.

(** "case-insensitively trimmed, is the literal string [word]" *)
Definition isLiteral (word : string) (cell : value) : bool :=
  String.eqb (toLowerCase (trim (ToString cell))) word.

Definition usableRow (row : list value) : bool :=
  nonEmpty (index row 0) && nonEmpty (index row 1) && nonEmpty (index row 5)
  && negb (isLiteral "day" (index row 0))
  && negb (isLiteral "city" (index row 1)).

(** "the subsequence of rows satisfying ALL of" the above, after the two
    header rows *)
Definition filterRows (grid : list (list value)) : list (list value) :=
  List.filter usableRow (drop 2 grid).

(** The test the code applies in its place: the truthiness of [&&], which
    the number 0 and [false] fail as the empty cells do. *)
Definition filled (cell : value) : bool :=
  match cell with
  | Num 0 | Bool false => false
  | _ => nonEmpty cell
  end.

Definition usableRow_js (row : list value) : bool :=
  filled (index row 0) && filled (index row 1) && filled (index row 5)
  && negb (isLiteral "day" (index row 0))
  && negb (isLiteral "city" (index row 1)).

Definition filterRows_js (grid : list (list value)) : list (list value) :=
  List.filter usableRow_js (drop 2 grid).

(** *** Duration calculator (section 4.4) *)

(** The hour part and the minute part: what stands before and after the
    first colon. *)
Fixpoint beforeColon (s : string) : string :=
  match s with
  | String c s' => if isColon c then EmptyString else String c (beforeColon s')
  | EmptyString => EmptyString
  end.

Fixpoint afterColon (s : string) : option string :=
  match s with
  | String c s' => if isColon c then Some s' else afterColon s'
  | EmptyString => None
  end.

Definition allDigits (s : string) : bool :=
  forallb isDigit (list_ascii_of_string s).

Definition decimal (s : string) : Z :=
  fold_left (fun acc c => 10 * acc + digitValue c) (list_ascii_of_string s) 0.

(** "pattern H:MM or HH:MM (1-2 digit hour, exactly 2-digit minute)";
    "hour must be in [0,23], minute in [0,59]"; minutes since midnight. *)
Definition parseTiming (s : string) : option Z :=
  match afterColon s with
  | Some mm =>
      let hh := beforeColon s in
      if allDigits hh && allDigits mm
         && (1 <=? String.length hh)%nat && (String.length hh <=? 2)%nat
         && (String.length mm =? 2)%nat
      then
        let h := decimal hh in
        let m := decimal mm in
        if (0 <=? h) && (h <=? 23) && (0 <=? m) && (m <=? 59)
        then Some (60 * h + m)
        else None
      else None
  | None => None
  end.

(** "Non-matching strings are skipped ... and excluded from the
    computation" *)
Definition validTimes (items : list ItineraryItem) : list Z :=
  omap (fun item => parseTiming (timing item)) items.

(** "duration = max - min; if negative, add 1440" *)
Definition duration (t : Z) (ts : list Z) : Z :=
  let d := foldr Z.max t ts - foldr Z.min t ts in
  if d <? 0 then d + 1440 else d.

(** [n] tenths of an hour is [d] minutes to one decimal place: the two
    differ by at most half a tenth. *)
Definition oneDecimal (d n : Z) : Prop :=
  0 <= n /\ Z.abs (60 * n - 10 * d) <= 30.

(** The contract of section 4.4, as a relation between the items and the
    output: the text fixes the one-decimal case only up to the rounding of
    ties. *)
Definition calculateDuration (items : list ItineraryItem) (out : string) : Prop :=
  match items with
  | [] => out = "0 hours"
  | _ =>
      match validTimes items with
      | [] => out = "0 hours"
      | t :: ts =>
          let d := duration t ts in
          if 1440 <=? d then out = "Full day"
          else if d mod 60 =? 0 then out = Z_toString (d / 60) +:+ " hours"
          else exists n, oneDecimal d n
                 /\ out = Z_toString (n / 10) +:+ "." +:+ Z_toString (n mod 10) +:+ " hours"
      end
  end.

End Reference.

Import JS Processor.

(** * Auxiliary definitions

    Notions used to state and prove the properties below. *)

(** The minutes-since-midnight value the loop body pushes for a timing
    string, if it pushes one. *)
Definition acceptedTime (timeStr : string) : option Z :=
  match matchTime timeStr with
  | None => None
  | Some (g1, g2) =>
      let hours := parseInt10 g1 in
      let minutes := parseInt10 g2 in
      if (hours <? 0) || (hours >? 23) || (minutes <? 0) || (minutes >? 59)
      then None
      else Some (hours * 60 + minutes)
  end.

(** What is checked of [formatDuration] on one duration: the output is
    not "Full day"; it is the whole number of hours when there is one;
    otherwise it prints the tenths [toFixed] chose, which are within half
    a tenth of the exact quotient. *)
Definition durationChecked (d : Z) : bool :=
  let out := formatDuration d in
  negb (String.eqb out "Full day")
  && (if d mod 60 =? 0
      then String.eqb out (Z_toString (d / 60) +:+ " hours")
      else match Number_div (Number_of_Z d) (Number_of_Z 60) with
           | S754_finite false m e =>
               let n := nearestTenths m e in
               (0 <=? n) && (Z.abs (60 * n - 10 * d) <=? 30)
               && String.eqb out (printTenths n +:+ " hours")
           | _ => false
           end).

(** The keyword contains no space. *)
Fixpoint spaceFree (k : string) : bool :=
  match k with
  | String c k' => negb (Ascii.eqb c " ") && spaceFree k'
  | EmptyString => true
  end.

(** The text scanned for category [c] and description [d]. *)
Definition mealText (c d : value) : string :=
  toLowerCase (ToString c +:+ " " +:+ ToString d).

(** The property key under which a row is grouped. *)
Definition keyOf (row : list value) : string := ToString (index row 0).

(** What one row does to the bucket it lands in. *)
Definition absorb (d : DayData) (row : list value) : DayData :=
  fold_left addMeal (detectMealsInItem (index row 4) (index row 5))
    (pushItem d (newItem row)).

(** The rows with key [k], in order, and the bucket they build. *)
Definition rowsOf (k : string) (rows : list (list value)) : list (list value) :=
  List.filter (fun row => String.eqb (keyOf row) k) rows.

Definition bucketOf (k : string) (rows : list (list value)) : option DayData :=
  match rowsOf k rows with
  | [] => None
  | row :: rest => Some (fold_left absorb (row :: rest) (newDay row))
  end.

(** The meals of a bucket are, without repetition, the keywords detected
    in its items. *)
Definition mealsOK (d : DayData) : Prop :=
  NoDup (allMeals d)
  /\ forall m, m ∈ allMeals d
       <-> exists item, item ∈ items d
             /\ m ∈ detectMealsInItem (category item) (description item).

(** Number of items over all buckets. *)
Definition totalItems (grouped : gmap string DayData) : nat :=
  sum_list ((fun kv => List.length (items kv.2)) <$> map_to_list grouped).

(** No own property of [grouped] hides a member of [Object.prototype]. *)
Definition noOwnInherited (grouped : gmap string DayData) : Prop :=
  forall k, k ∈ Object_prototype_keys -> grouped !! k = None.

(** ** Worked examples *)

Definition visitAt (t : string) : ItineraryItem :=
  {| timing := t; category := Str "Sightseeing"; description := Str "Visit" |}.

Definition headerRows : list (list value) :=
  [ [Str "Title"; Str "European Vacation"];
    [Str "Day"; Str "City"; Str "Date"; Str "Time"; Str "Category"; Str "Description"] ].

Definition parisRow : list value :=
  [Num 1; Str "Paris"; Str "2025-05-01"; Str "09:00"; Str "Sightseeing"; Str "Eiffel Tower visit"].

Definition lyonRow : list value :=
  [Str "1"; Str "Lyon"; Str "2025-05-02"; Str "12:30"; Str "Food"; Str "Lunch at the brunch bar"].

Definition romeRow : list value :=
  [Str "2"; Str "Rome"; Str "2025-05-03"; Str "09:30"; Str "Sightseeing"; Str "Colosseum"].

Definition sampleGrid : list (list value) :=
  headerRows ++ [parisRow; lyonRow; romeRow].

Definition dayOne : DayData :=
  {| day := Num 1; city := Str "Paris"; date := Str "2025-05-01";
     items := [newItem parisRow; newItem lyonRow];
     allMeals := ["brunch"; "lunch"] |}.

Definition dayTwo : DayData :=
  {| day := Str "2"; city := Str "Rome"; date := Str "2025-05-03";
     items := [newItem romeRow];
     allMeals := [] |}.

Definition sampleResult : ItineraryData :=
  {| title := Str "European Vacation";
     days := <["2" := dayTwo]> (<["1" := dayOne]> ∅) |}.

(** A grid whose only data row has the numeric day 0. *)
Definition dayZeroRow : list value :=
  [Num 0; Str "Lisbon"; Str "2025-05-01"; Str "19:00"; Str "Food"; Str "Arrival dinner"].

Definition dayZeroGrid : list (list value) := headerRows ++ [dayZeroRow].

(** The same row as a CSV file delivers it: every cell a string. *)
Definition dayZeroTextRow : list value :=
  [Str "0"; Str "Lisbon"; Str "2025-05-01"; Str "19:00"; Str "Food"; Str "Arrival dinner"].

Definition dayZeroTextGrid : list (list value) := headerRows ++ [dayZeroTextRow].

(** Grids whose title cell holds the number 0, [false], and the text "0". *)
Definition titleGrid (cell : value) : list (list value) :=
  [ [Str "Title"; cell];
    [Str "Day"; Str "City"; Str "Date"; Str "Time"; Str "Category"; Str "Description"] ].

Definition zeroTitleGrid : list (list value) := titleGrid (Num 0).

(** A grid whose only data row has the day label "constructor". *)
Definition inheritedKeyRow : list value :=
  [Str "constructor"; Str "Paris"; Str "2025-05-01"; Str "09:00"; Str "Food"; Str "Lunch"].

Definition inheritedKeyGrid : list (list value) := headerRows ++ [inheritedKeyRow].

(** A grid with a repeated header row and a row without description. *)
Definition rejectedGrid : list (list value) :=
  headerRows ++ [ [Str " DAY "; Str "City"; Str "Date"; Str "Time"; Str "Category"; Str "Description"];
                  [Str "3"; Str "Rome"; Str "2025-05-03"; Str "09:30"; Str "Food"] ].

(** * Further functions of the processor module *)

(** ** More of the JavaScript runtime *)

Module Builtins.
Import JS.

(** [s.split(sep)] for a one-character separator: the pieces between the
    occurrences of [sep]; never an empty array. *)
Fixpoint splitFrom (sep : ascii) (piece : string) (s : string) : list string :=
  match s with
  | String c s' =>
      if Ascii.eqb c sep then piece :: splitFrom sep EmptyString s'
      else splitFrom sep (piece +:+ String c EmptyString) s'
  | EmptyString => [piece]
  end.

Definition split (sep : ascii) (s : string) : list string :=
  splitFrom sep EmptyString s.

(** [arr.join(sep)] *)
Fixpoint join (sep : string) (arr : list string) : string :=
  match arr with
  | [] => EmptyString
  | [x] => x
  | x :: rest => x +:+ sep +:+ join sep rest
  end.

End Builtins.

(** ** CSV parsing *)

Module Csv.
Import JS Builtins.

Definition newline : ascii := ascii_of_N 10.
Definition quote : ascii := ascii_of_N 34.
Definition comma : ascii := ascii_of_N 44.

(** The variables of the loop over the characters of one line. *)
Record lineState : Type := {
  result : list string;
  inQuote : bool;
  currentValue : string
}.

Definition lineStep (st : lineState) (char : ascii) : lineState :=
  if Ascii.eqb char quote then
    {| result := result st; inQuote := negb (inQuote st);
       currentValue := currentValue st |}
  else if Ascii.eqb char comma && negb (inQuote st) then
    {| result := result st ++ [currentValue st]; inQuote := inQuote st;
       currentValue := EmptyString |}
  else
    {| result := result st; inQuote := inQuote st;
       currentValue := currentValue st +:+ String char EmptyString |}.

Definition parseLine (line : string) : list string :=
  let st := fold_left lineStep (list_ascii_of_string line)
              {| result := []; inQuote := false; currentValue := EmptyString |} in
  result st ++ [currentValue st].

Definition parseCSV (csvText : string) : list (list string) :=
  map parseLine (split newline csvText).

(** A parsed sheet handed to [processItineraryData]: every cell is a
    string. *)
Definition asGrid (sheet : list (list string)) : list (list value) :=
  map (map Str) sheet.

End Csv.

Import Builtins Csv.

(** ** Formatting *)

Module Format.
Import JS Builtins Processor.

(** [c.toUpperCase()] for a one-character string.  The small sharp s
    becomes two letters; the capitals of the micro sign (U+00B5) and of y
    with diaeresis (U+00FF) lie beyond the code units that strings model
    here, and [None] stands for them. *)
Definition upperChar (c : ascii) : option string :=
  let n := code c in
  if ((97 <=? n) && (n <=? 122)
      || (224 <=? n) && (n <=? 254) && negb (n =? 247))%N
  then Some (String (ascii_of_N (n - 32)) EmptyString)
  else if (n =? 223)%N then Some "SS"
  else if ((n =? 181) || (n =? 255))%N then None
  else Some (String c EmptyString).

(** [meal.charAt(0).toUpperCase() + meal.slice(1)] *)
Definition capitalize (meal : string) : option string :=
  match meal with
  | EmptyString => Some EmptyString
  | String c rest =>
      match upperChar c with
      | Some upper => Some (upper +:+ rest)
      | None => None
      end
  end.

(** [mealsArray.map(meal => ...)] *)
Fixpoint capitalizeAll (mealsArray : list string) : option (list string) :=
  match mealsArray with
  | [] => Some []
  | meal :: rest =>
      match capitalize meal, capitalizeAll rest with
      | Some first, Some others => Some (first :: others)
      | _, _ => None
      end
  end.

Definition formatMealsText (mealsArray : list string) : option string :=
  match mealsArray with
  | [] => Some "No meals detected"
  | _ =>
      match capitalizeAll mealsArray with
      | Some capitalized => Some (join " & " capitalized)
      | None => None
      end
  end.

Definition formatTime (timeValue : value) : string :=
  if negb (truthy timeValue) then "Time"
  else trim (ToString timeValue).

(** The double quote, which the icon markup is full of. *)
Definition dq : string := String (ascii_of_N 34) EmptyString.

Definition sightseeingIcon : string :=
  "<svg xmlns=" +:+ dq +:+ "http://www.w3.org/2000/svg" +:+ dq +:+
  " width=" +:+ dq +:+ "16" +:+ dq +:+ " height=" +:+ dq +:+ "16" +:+ dq +:+
  " viewBox=" +:+ dq +:+ "0 0 24 24" +:+ dq +:+ " fill=" +:+ dq +:+
  "none" +:+ dq +:+ " stroke=" +:+ dq +:+ "currentColor" +:+ dq +:+
  " stroke-width=" +:+ dq +:+ "2" +:+ dq +:+ " stroke-linecap=" +:+ dq +:+
  "round" +:+ dq +:+ " stroke-linejoin=" +:+ dq +:+ "round" +:+ dq +:+
  "><circle cx=" +:+ dq +:+ "12" +:+ dq +:+ " cy=" +:+ dq +:+ "12" +:+ dq +:+
  " r=" +:+ dq +:+ "10" +:+ dq +:+ "/><path d=" +:+ dq +:+
  "M12 2a14.5 14.5 0 0 0 0 20 14.5 14.5 0 0 0 0-20" +:+ dq +:+
  "/><path d=" +:+ dq +:+ "M2 12h20" +:+ dq +:+ "/></svg>".

Definition foodIcon : string :=
  "<svg xmlns=" +:+ dq +:+ "http://www.w3.org/2000/svg" +:+ dq +:+
  " width=" +:+ dq +:+ "16" +:+ dq +:+ " height=" +:+ dq +:+ "16" +:+ dq +:+
  " viewBox=" +:+ dq +:+ "0 0 24 24" +:+ dq +:+ " fill=" +:+ dq +:+
  "none" +:+ dq +:+ " stroke=" +:+ dq +:+ "currentColor" +:+ dq +:+
  " stroke-width=" +:+ dq +:+ "2" +:+ dq +:+ " stroke-linecap=" +:+ dq +:+
  "round" +:+ dq +:+ " stroke-linejoin=" +:+ dq +:+ "round" +:+ dq +:+
  "><path d=" +:+ dq +:+ "M7 10h10" +:+ dq +:+ "/><path d=" +:+ dq +:+
  "M7 14h10" +:+ dq +:+ "/><circle cx=" +:+ dq +:+ "12" +:+ dq +:+ " cy=" +:+
  dq +:+ "12" +:+ dq +:+ " r=" +:+ dq +:+ "9" +:+ dq +:+ "/></svg>".

Definition transportationIcon : string :=
  "<svg xmlns=" +:+ dq +:+ "http://www.w3.org/2000/svg" +:+ dq +:+
  " width=" +:+ dq +:+ "16" +:+ dq +:+ " height=" +:+ dq +:+ "16" +:+ dq +:+
  " viewBox=" +:+ dq +:+ "0 0 24 24" +:+ dq +:+ " fill=" +:+ dq +:+
  "none" +:+ dq +:+ " stroke=" +:+ dq +:+ "currentColor" +:+ dq +:+
  " stroke-width=" +:+ dq +:+ "2" +:+ dq +:+ " stroke-linecap=" +:+ dq +:+
  "round" +:+ dq +:+ " stroke-linejoin=" +:+ dq +:+ "round" +:+ dq +:+
  "><path d=" +:+ dq +:+
  "M5 18H3c-.6 0-1-.4-1-1V7c0-.6.4-1 1-1h10c.6 0 1 .4 1 1v11" +:+ dq +:+
  "/><path d=" +:+ dq +:+ "M14 9h4l4 4v4c0 .6-.4 1-1 1h-2" +:+ dq +:+
  "/><circle cx=" +:+ dq +:+ "7" +:+ dq +:+ " cy=" +:+ dq +:+ "18" +:+ dq +:+
  " r=" +:+ dq +:+ "2" +:+ dq +:+ "/><path d=" +:+ dq +:+ "M15 18H9" +:+
  dq +:+ "/><circle cx=" +:+ dq +:+ "17" +:+ dq +:+ " cy=" +:+ dq +:+
  "18" +:+ dq +:+ " r=" +:+ dq +:+ "2" +:+ dq +:+ "/></svg>".

Definition accommodationIcon : string :=
  "<svg xmlns=" +:+ dq +:+ "http://www.w3.org/2000/svg" +:+ dq +:+
  " width=" +:+ dq +:+ "16" +:+ dq +:+ " height=" +:+ dq +:+ "16" +:+ dq +:+
  " viewBox=" +:+ dq +:+ "0 0 24 24" +:+ dq +:+ " fill=" +:+ dq +:+
  "none" +:+ dq +:+ " stroke=" +:+ dq +:+ "currentColor" +:+ dq +:+
  " stroke-width=" +:+ dq +:+ "2" +:+ dq +:+ " stroke-linecap=" +:+ dq +:+
  "round" +:+ dq +:+ " stroke-linejoin=" +:+ dq +:+ "round" +:+ dq +:+
  "><path d=" +:+ dq +:+ "M3 9v9a2 2 0 0 0 2 2h14a2 2 0 0 0 2-2V9" +:+ dq +:+
  "/><path d=" +:+ dq +:+ "M21 9V7a2 2 0 0 0-2-2H5a2 2 0 0 0-2 2v2" +:+
  dq +:+ "/><path d=" +:+ dq +:+ "M6 14h12" +:+ dq +:+ "/></svg>".

Definition activityIcon : string :=
  "<svg xmlns=" +:+ dq +:+ "http://www.w3.org/2000/svg" +:+ dq +:+
  " width=" +:+ dq +:+ "16" +:+ dq +:+ " height=" +:+ dq +:+ "16" +:+ dq +:+
  " viewBox=" +:+ dq +:+ "0 0 24 24" +:+ dq +:+ " fill=" +:+ dq +:+
  "none" +:+ dq +:+ " stroke=" +:+ dq +:+ "currentColor" +:+ dq +:+
  " stroke-width=" +:+ dq +:+ "2" +:+ dq +:+ " stroke-linecap=" +:+ dq +:+
  "round" +:+ dq +:+ " stroke-linejoin=" +:+ dq +:+ "round" +:+ dq +:+
  "><circle cx=" +:+ dq +:+ "12" +:+ dq +:+ " cy=" +:+ dq +:+ "12" +:+ dq +:+
  " r=" +:+ dq +:+ "10" +:+ dq +:+ "/><path d=" +:+ dq +:+
  "m16 12-4-4-4 4" +:+ dq +:+ "/><path d=" +:+ dq +:+ "m16 12-4 4-4-4" +:+
  dq +:+ "/></svg>".

Definition fallbackIcon : string :=
  "<svg xmlns=" +:+ dq +:+ "http://www.w3.org/2000/svg" +:+ dq +:+
  " width=" +:+ dq +:+ "16" +:+ dq +:+ " height=" +:+ dq +:+ "16" +:+ dq +:+
  " viewBox=" +:+ dq +:+ "0 0 24 24" +:+ dq +:+ " fill=" +:+ dq +:+
  "none" +:+ dq +:+ " stroke=" +:+ dq +:+ "currentColor" +:+ dq +:+
  " stroke-width=" +:+ dq +:+ "2" +:+ dq +:+ " stroke-linecap=" +:+ dq +:+
  "round" +:+ dq +:+ " stroke-linejoin=" +:+ dq +:+ "round" +:+ dq +:+
  "><circle cx=" +:+ dq +:+ "12" +:+ dq +:+ " cy=" +:+ dq +:+ "12" +:+ dq +:+
  " r=" +:+ dq +:+ "10" +:+ dq +:+ "/></svg>".

(** The object literal [categoryIcons]. *)
Definition categoryIcons : gmap string string :=
  list_to_map
    [ ("sightseeing", sightseeingIcon);
      ("food", foodIcon);
      ("transportation", transportationIcon);
      ("accommodation", accommodationIcon);
      ("activity", activityIcon) ].

(** What [getCategoryIcon] returns: icon markup, or, when the lookup ends
    in [Object.prototype], the member found there. *)
Inductive iconResult : Type :=
| Markup (svg : string)
| PrototypeMember (name : string).

(** [categoryIcons[lowerCategory] || fallback] *)
Definition getCategoryIcon (category : string) : iconResult :=
  let lowerCategory := toLowerCase category in
  match Get categoryIcons lowerCategory with
  | Own svg => if truthy (Str svg) then Markup svg else Markup fallbackIcon
  | Inherited => PrototypeMember lowerCategory
  | Missing => Markup fallbackIcon
  end.

End Format.

(** ** The meals line of the PDF pages *)

Module Pdf.
Import JS Builtins Processor Format.

(** [Array.from(day.allMeals).map(...).join(' & ') || fallback] *)
Definition mealsLine (fallback : string) (allMeals : list string) : option string :=
  match capitalizeAll allMeals with
  | Some capitalized =>
      let text := join " & " capitalized in
      Some (if truthy (Str text) then text else fallback)
  | None => None
  end.

(** The "Meals" cell of the overview table. *)
Definition overviewMeals (d : DayData) : option string :=
  mealsLine "No meals specified" (allMeals d).

(** [mealsText] of a day page. *)
Definition dayPageMeals (d : DayData) : option string :=
  mealsLine "No meals detected" (allMeals d).

End Pdf.

Import Format Pdf.


(** The fields still to come from the characters [cs], in quote state
    [q], with [cur] the field under construction. *)
Fixpoint fieldsFrom (q : bool) (cur : string) (cs : list ascii) : list string :=
  match cs with
  | [] => [cur]
  | c :: cs' =>
      if Ascii.eqb c quote then fieldsFrom (negb q) cur cs'
      else if Ascii.eqb c comma && negb q then cur :: fieldsFrom q EmptyString cs'
      else fieldsFrom q (cur +:+ String c EmptyString) cs'
  end.

(** The character [c] does not occur in [s]. *)
Fixpoint freeOf (c : ascii) (s : string) : bool :=
  match s with
  | String x s' => negb (Ascii.eqb x c) && freeOf c s'
  | EmptyString => true
  end.

(** Occurrences of a character. *)
Fixpoint occurrences (c : ascii) (s : string) : nat :=
  match s with
  | String x s' => ((if Ascii.eqb x c then 1 else 0) + occurrences c s')%nat
  | EmptyString => 0%nat
  end.

(** A field wrapped in double quotes. *)
Definition quoted (field : string) : string :=
  String quote field +:+ String quote EmptyString.

(** Characters of a parsed line: those of its fields, one separator
    between neighbouring fields. *)
Definition fieldChars (fields : list string) : nat :=
  (list_sum (map String.length fields) + List.length fields - 1)%nat.

(** The timing of the item is one the duration loop accepts. *)
Definition timingAccepted (item : ItineraryItem) : bool :=
  match acceptedTime (timing item) with
  | Some _ => true
  | None => false
  end.

(** The meal keywords as [capitalize] prints them. *)
Definition mealLabels : list string := ["Breakfast"; "Brunch"; "Lunch"; "Dinner"].

(** The two members of [Object.prototype] whose names have no capital
    letter. *)
Definition lowerCaseMembers : list string := ["constructor"; "__proto__"].

(** All markup [getCategoryIcon] can return. *)
Definition allIcons : list string :=
  [sightseeingIcon; foodIcon; transportationIcon; accommodationIcon;
   activityIcon; fallbackIcon].

(** ** Tactics *)

(** Case analysis on a character of a timing string: a colon (which by
    [excl] is not a digit), a digit, or neither. *)
Ltac split_char excl c :=
  let Hc := fresh "Hcolon" in
  let Hd := fresh "Hdigit" in
  destruct (isColon c) eqn:Hc;
  [ pose proof (excl c Hc) as Hd | destruct (isDigit c) eqn:Hd ].

(** Rewrite with what is known of the characters. *)
Ltac use_char_facts :=
  repeat match goal with
         | H : isDigit ?c = _ |- context [isDigit ?c] => rewrite H
         | H : isColon ?c = _ |- context [isColon ?c] => rewrite H
         end.

(** Both parsers, evaluated on a timing string of known shape. *)
Ltac decide_timing :=
  unfold Reference.parseTiming, acceptedTime, matchTime, parseInt10,
    Reference.allDigits, Reference.decimal;
  simpl; use_char_facts; simpl; use_char_facts; simpl;
  try reflexivity;
  repeat case_match; try reflexivity; try lia; f_equal; lia.

(** * Properties *)

(** ** Strings *)

Lemma append_cons (x : ascii) (a b : string) :
  String x a +:+ b = String x (a +:+ b).
Proof. reflexivity. Qed.

Lemma append_empty_l (b : string) : "" +:+ b = b.
Proof. reflexivity. Qed.

Lemma length_cons (x : ascii) (a : string) :
  String.length (String x a) = S (String.length a).
Proof. reflexivity. Qed.

Lemma append_assoc (a b c : string) : (a +:+ b) +:+ c = a +:+ (b +:+ c).
Proof.
  induction a as [|x a IH]; [done|].
  by rewrite !append_cons, IH.
Qed.

(** ** Duration calculator *)

Lemma loopBody_times st item :
  times (loopBody st item) = times st ++ option_list (acceptedTime (timing item)).
Proof.
  unfold loopBody, acceptedTime.
  destruct (matchTime (timing item)) as [[g1 g2]|]; simpl.
  - destruct (_ || _); simpl; [by rewrite app_nil_r | done].
  - by rewrite app_nil_r.
Qed.

Lemma fold_loopBody_times items st :
  times (fold_left loopBody items st)
  = times st ++ omap (fun item => acceptedTime (timing item)) items.
Proof.
  revert st. induction items as [|item items IH]; intros st; simpl.
  - by rewrite app_nil_r.
  - rewrite IH, loopBody_times.
    destruct (acceptedTime (timing item)); simpl; by rewrite <- app_assoc.
Qed.

Lemma collectTimes_times items :
  times (collectTimes items) = omap (fun item => acceptedTime (timing item)) items.
Proof. unfold collectTimes. by rewrite fold_loopBody_times. Qed.

Lemma acceptedTime_range timeStr t :
  acceptedTime timeStr = Some t -> 0 <= t <= 1439.
Proof.
  unfold acceptedTime.
  destruct (matchTime timeStr) as [[g1 g2]|]; [|done].
  simpl. destruct (_ || _) eqn:E; [done|].
  intros [= <-].
  apply orb_false_elim in E as [E Hm]. apply orb_false_elim in E as [E Hm0].
  apply orb_false_elim in E as [Hh0 Hh].
  lia.
Qed.

Lemma collectTimes_range items t :
  t ∈ times (collectTimes items) -> 0 <= t <= 1439.
Proof.
  rewrite collectTimes_times. intros Hin.
  apply list_elem_of_omap in Hin as (item & _ & Hacc).
  by eapply acceptedTime_range.
Qed.

Lemma Math_min_le t ts : Math_min t ts <= t.
Proof.
  unfold Math_min. revert t.
  induction ts as [|x ts IH]; intros t; simpl; [lia|].
  specialize (IH (Z.min t x)). lia.
Qed.

Lemma Math_max_ge t ts : t <= Math_max t ts.
Proof.
  unfold Math_max. revert t.
  induction ts as [|x ts IH]; intros t; simpl; [lia|].
  specialize (IH (Z.max t x)). lia.
Qed.

Lemma Math_min_lower lo t ts :
  lo <= t -> (forall x, x ∈ ts -> lo <= x) -> lo <= Math_min t ts.
Proof.
  unfold Math_min. revert t.
  induction ts as [|x ts IH]; intros t Ht Hts; simpl; [done|].
  apply IH.
  - specialize (Hts x (list_elem_of_here _ _)). lia.
  - intros y Hy. apply Hts. by apply list_elem_of_further.
Qed.

Lemma Math_max_upper hi t ts :
  t <= hi -> (forall x, x ∈ ts -> x <= hi) -> Math_max t ts <= hi.
Proof.
  unfold Math_max. revert t.
  induction ts as [|x ts IH]; intros t Ht Hts; simpl; [done|].
  apply IH.
  - specialize (Hts x (list_elem_of_here _ _)). lia.
  - intros y Hy. apply Hts. by apply list_elem_of_further.
Qed.

Lemma Math_min_foldr t ts : Math_min t ts = foldr Z.min t ts.
Proof.
  unfold Math_min. apply fold_symmetric; intros; lia.
Qed.

Lemma Math_max_foldr t ts : Math_max t ts = foldr Z.max t ts.
Proof.
  unfold Math_max. apply fold_symmetric; intros; lia.
Qed.

(** The difference of the latest and the earliest of the collected times
    lies within one day. *)
Lemma rawDifference_range t ts :
  (forall x, x ∈ t :: ts -> 0 <= x <= 1439) ->
  0 <= rawDifference t ts <= 1439.
Proof.
  intros Hall. unfold rawDifference.
  pose proof (Math_min_le t ts). pose proof (Math_max_ge t ts).
  assert (0 <= Math_min t ts).
  { apply Math_min_lower.
    - apply Hall, list_elem_of_here.
    - intros x Hx. apply Hall. by apply list_elem_of_further. }
  assert (Math_max t ts <= 1439).
  { apply Math_max_upper.
    - apply Hall, list_elem_of_here.
    - intros x Hx. apply Hall. by apply list_elem_of_further. }
  lia.
Qed.

(** *** The formatted output, for every duration within one day

    The division by 60 is a binary64 division and [toFixed] rounds the
    exact value of its result, so the facts about the output are checked
    on each of the 1440 possible durations. *)

Lemma durationChecked_table :
  forallb durationChecked (map Z.of_nat (seq 0 1440)) = true.
Proof. vm_compute. reflexivity. Qed.

Lemma durationChecked_all d : 0 <= d <= 1439 -> durationChecked d = true.
Proof.
  intros Hd.
  pose proof durationChecked_table as Htab.
  rewrite forallb_forall in Htab. apply Htab.
  apply in_map_iff. exists (Z.to_nat d). split; [lia|].
  apply in_seq. lia.
Qed.

Lemma formatDuration_not_full_day d :
  0 <= d <= 1439 -> formatDuration d <> "Full day".
Proof.
  intros Hd Heq. pose proof (durationChecked_all d Hd) as Hc.
  unfold durationChecked in Hc. rewrite Heq in Hc. simpl in Hc. done.
Qed.

Lemma formatDuration_whole d :
  0 <= d <= 1439 -> d mod 60 = 0 ->
  formatDuration d = Z_toString (d / 60) +:+ " hours".
Proof.
  intros Hd Hmod. pose proof (durationChecked_all d Hd) as Hc.
  unfold durationChecked in Hc. apply andb_prop in Hc as [_ Hc].
  rewrite Hmod in Hc. simpl in Hc. by apply String.eqb_eq in Hc.
Qed.

Lemma formatDuration_fraction d :
  0 <= d <= 1439 -> d mod 60 <> 0 ->
  exists n, Reference.oneDecimal d n
    /\ formatDuration d
       = Z_toString (n / 10) +:+ "." +:+ Z_toString (n mod 10) +:+ " hours".
Proof.
  intros Hd Hmod. pose proof (durationChecked_all d Hd) as Hc.
  unfold durationChecked in Hc. apply andb_prop in Hc as [_ Hc].
  destruct (d mod 60 =? 0) eqn:E; [apply Z.eqb_eq in E; done|].
  destruct (Number_div _ _) as [| | |[] m e]; try done.
  apply andb_prop in Hc as [Hc Hout]. apply andb_prop in Hc as [Hn Hclose].
  exists (nearestTenths m e). split.
  - unfold Reference.oneDecimal. lia.
  - apply String.eqb_eq in Hout. rewrite Hout. unfold printTenths.
    by rewrite !append_assoc.
Qed.

(** *** The time pattern against the reference parser *)

Lemma isColon_not_digit c : isColon c = true -> isDigit c = false.
Proof.
  unfold isColon, isDigit. intros H. apply N.eqb_eq in H. rewrite H. reflexivity.
Qed.

Lemma parseInt10_one a :
  isDigit a = true -> parseInt10 (String a "") = digitValue a.
Proof. intros Ha. unfold parseInt10. simpl. by rewrite Ha. Qed.

Lemma parseInt10_two a b :
  isDigit a = true -> isDigit b = true ->
  parseInt10 (String a (String b "")) = digitValue a * 10 + digitValue b.
Proof. intros Ha Hb. unfold parseInt10. simpl. by rewrite Ha, Hb. Qed.

Lemma afterColon_length s mm :
  Reference.afterColon s = Some mm ->
  String.length s = S (String.length (Reference.beforeColon s) + String.length mm).
Proof.
  induction s as [|c s IH]; simpl; [done|].
  destruct (isColon c).
  - by intros [= ->].
  - intros H. simpl. by rewrite (IH H).
Qed.

Lemma parseTiming_length s t :
  Reference.parseTiming s = Some t -> (String.length s <= 5)%nat.
Proof.
  unfold Reference.parseTiming.
  destruct (Reference.afterColon s) as [mm|] eqn:Hafter; [|done].
  apply afterColon_length in Hafter.
  destruct (_ && _) eqn:E; [|done]. intros _.
  apply andb_prop in E as [E Hmm]. apply andb_prop in E as [E Hhh2].
  apply Nat.eqb_eq in Hmm. apply Nat.leb_le in Hhh2. lia.
Qed.

Lemma matchTime_length s g :
  matchTime s = Some g -> (String.length s <= 5)%nat.
Proof.
  destruct s as [|c1 [|c2 [|c3 [|c4 [|c5 [|c6 s]]]]]]; simpl; try done; lia.
Qed.

Lemma parseTiming_acceptedTime s :
  Reference.parseTiming s = acceptedTime s.
Proof.
  destruct (decide (String.length s <= 5)%nat) as [Hlen|Hlen].
  - destruct s as [|c1 [|c2 [|c3 [|c4 [|c5 [|c6 s]]]]]];
      [ reflexivity | | | | | | rewrite !length_cons in Hlen; lia ].
    + split_char isColon_not_digit c1; decide_timing.
    + split_char isColon_not_digit c1; split_char isColon_not_digit c2; decide_timing.
    + split_char isColon_not_digit c1; split_char isColon_not_digit c2; split_char isColon_not_digit c3; decide_timing.
    + split_char isColon_not_digit c1; split_char isColon_not_digit c2; split_char isColon_not_digit c3; split_char isColon_not_digit c4; decide_timing.
    + split_char isColon_not_digit c1; split_char isColon_not_digit c2; split_char isColon_not_digit c3; split_char isColon_not_digit c4; split_char isColon_not_digit c5;
        decide_timing.
  - destruct (Reference.parseTiming s) as [t|] eqn:Hp.
    { apply parseTiming_length in Hp. lia. }
    unfold acceptedTime.
    destruct (matchTime s) as [g|] eqn:Hm; [|done].
    apply matchTime_length in Hm. lia.
Qed.

Lemma validTimes_collectTimes items :
  Reference.validTimes items = times (collectTimes items).
Proof.
  rewrite collectTimes_times. unfold Reference.validTimes.
  apply list_omap_ext, Forall2_same_length_lookup_2; [done|].
  intros i x y Hx Hy. rewrite Hx in Hy. injection Hy as <-.
  apply parseTiming_acceptedTime.
Qed.

Lemma duration_overnight t ts :
  Reference.duration t ts = overnight (rawDifference t ts).
Proof.
  unfold Reference.duration, overnight, rawDifference.
  by rewrite Math_min_foldr, Math_max_foldr.
Qed.

Lemma collected_rawDifference_range items t ts :
  times (collectTimes items) = t :: ts ->
  0 <= rawDifference t ts <= 1439.
Proof.
  intros Htimes. apply rawDifference_range.
  intros x Hx. apply (collectTimes_range items). by rewrite Htimes.
Qed.

Lemma overnight_nonneg d : 0 <= d -> overnight d = d.
Proof. intros Hd. unfold overnight. destruct (d <? 0) eqn:E; lia. Qed.

(** Every item leaves either a time or a warning. *)
Lemma fold_loopBody_accounts items st :
  (List.length (times (fold_left loopBody items st))
   + List.length (console (fold_left loopBody items st)))%nat
  = (List.length (times st) + List.length (console st) + List.length items)%nat.
Proof.
  revert st. induction items as [|item items IH]; intros st; simpl; [lia|].
  rewrite IH. unfold loopBody.
  destruct (matchTime (timing item)) as [[g1 g2]|]; simpl.
  - destruct (_ || _); simpl; rewrite length_app; simpl; lia.
  - rewrite length_app. simpl. lia.
Qed.

Lemma collectTimes_accounts items :
  (List.length (times (collectTimes items))
   + List.length (console (collectTimes items)))%nat
  = List.length items.
Proof. unfold collectTimes. by rewrite fold_loopBody_accounts. Qed.

(** *** The calculator on small inputs *)

Example calculateDayDuration_empty :
  calculateDayDuration_run [] = ("0 hours", []).
Proof. reflexivity. Qed.

Example calculateDayDuration_working_day :
  calculateDayDuration [visitAt "09:00"; visitAt "17:00"] = "8 hours".
Proof. reflexivity. Qed.

Example calculateDayDuration_unparsable :
  calculateDayDuration_run [visitAt "bad"]
  = ("0 hours", ["Invalid time format: bad"]).
Proof. reflexivity. Qed.

Example calculateDayDuration_skips_invalid :
  calculateDayDuration_run
    [visitAt "7:05"; visitAt "24:00"; visitAt "12:30"; visitAt "noon"]
  = ("5.4 hours", ["Invalid time value: 24:00"; "Invalid time format: noon"]).
Proof. reflexivity. Qed.

(** Nine minutes are 0.15 hours; the nearest double lies just below 0.15
    and [toFixed(1)] prints 0.1.  Fifteen minutes are exactly 0.25 and
    the tie goes up. *)
Example calculateDayDuration_nine_minutes :
  calculateDayDuration [visitAt "09:00"; visitAt "09:09"] = "0.1 hours".
Proof. reflexivity. Qed.

Example calculateDayDuration_quarter_hour :
  calculateDayDuration [visitAt "09:00"; visitAt "09:15"] = "0.3 hours".
Proof. reflexivity. Qed.

(** The formatter does print "Full day" from 24 hours on, and the
    overnight adjustment would turn -1320 minutes into two hours; no item
    list reaches either (see below). *)
Example formatDuration_full_day : formatDuration 1440 = "Full day".
Proof. reflexivity. Qed.

Example overnight_adjustment :
  overnight (60 - 1380) = 120 /\ formatDuration 120 = "2 hours".
Proof. split; reflexivity. Qed.

(** *** Claims about the duration calculator *)

(** C1 (the code at the claim's input).  For the two-item list with timings
    "23:00" and "01:00" the claim expects "2 hours"; [calculateDayDuration]
    takes the smallest and the largest of the two times, 01:00 and 23:00,
    and returns "22 hours". *)
Theorem calculateDayDuration_overnight_pair (c1 d1 c2 d2 : value) :
  calculateDayDuration
    [ {| timing := "23:00"; category := c1; description := d1 |};
      {| timing := "01:00"; category := c2; description := d2 |} ]
  = "22 hours".
Proof. reflexivity. Qed.

(** C2.  [calculateDayDuration] meets the reference definition of section
    4.4: "0 hours" for an empty list or when no timing parses; otherwise,
    with the duration taken from the smallest and largest valid time,
    "Full day" from 1440 minutes on, "<N> hours" for a whole number of
    hours, and "<N.D> hours", correct to one decimal place, otherwise. *)
Theorem calculateDayDuration_meets_reference (items : list ItineraryItem) :
  Reference.calculateDuration items (calculateDayDuration items).
Proof.
  unfold Reference.calculateDuration, calculateDayDuration, calculateDayDuration_run.
  destruct items as [|item items]; [done|].
  rewrite validTimes_collectTimes.
  destruct (times (collectTimes (item :: items))) as [|t ts] eqn:Htimes; [done|].
  pose proof (collected_rawDifference_range _ _ _ Htimes) as Hrange.
  rewrite duration_overnight, overnight_nonneg by lia.
  cbn [fst].
  destruct (1440 <=? rawDifference t ts) eqn:Hfull; [lia|].
  destruct (rawDifference t ts mod 60 =? 0) eqn:Hwhole.
  - apply formatDuration_whole; lia.
  - apply formatDuration_fraction; lia.
Qed.

(** C9.  Whatever the items, the difference of the largest and the
    smallest collected time is never negative, so the overnight adjustment
    leaves it unchanged; it is at most 1439 minutes, and the result is
    never "Full day". *)
Theorem calculateDayDuration_never_full_day (items : list ItineraryItem) :
  calculateDayDuration items <> "Full day"
  /\ forall t ts, times (collectTimes items) = t :: ts ->
       0 <= rawDifference t ts
       /\ overnight (rawDifference t ts) = rawDifference t ts
       /\ overnight (rawDifference t ts) <= 1439.
Proof.
  split.
  - unfold calculateDayDuration, calculateDayDuration_run.
    destruct items as [|item items]; [done|].
    destruct (times (collectTimes (item :: items))) as [|t ts] eqn:Htimes; [done|].
    pose proof (collected_rawDifference_range _ _ _ Htimes) as Hrange.
    cbn [fst]. rewrite overnight_nonneg by lia.
    apply formatDuration_not_full_day. lia.
  - intros t ts Htimes.
    pose proof (collected_rawDifference_range _ _ _ Htimes) as Hrange.
    rewrite overnight_nonneg by lia. lia.
Qed.

Lemma calculateDayDuration_never_full_day_witness :
  times (collectTimes [ {| timing := "23:00"; category := Str "Food";
                           description := Str "Dinner" |};
                        {| timing := "01:00"; category := Str "Transportation";
                           description := Str "Taxi" |} ])
  = [1380; 60]
  /\ 0 <= rawDifference 1380 [60]
  /\ overnight (rawDifference 1380 [60]) = rawDifference 1380 [60]
  /\ overnight (rawDifference 1380 [60]) <= 1439.
Proof.
  split; [reflexivity|].
  apply (proj2 (calculateDayDuration_never_full_day
                  [ {| timing := "23:00"; category := Str "Food";
                       description := Str "Dinner" |};
                    {| timing := "01:00"; category := Str "Transportation";
                       description := Str "Taxi" |} ]) 1380 [60]).
  reflexivity.
Defined.

(** ** Meal detector *)

Lemma prefix_append_space k a b :
  spaceFree k = true ->
  String.prefix k (a +:+ String " " b) = String.prefix k a.
Proof.
  revert a. induction k as [|c k IH]; intros a Hfree.
  - by destruct a.
  - simpl in Hfree. apply andb_prop in Hfree as [Hc Hk].
    apply negb_true_iff, Ascii.eqb_neq in Hc.
    destruct a as [|x a].
    + rewrite append_empty_l. simpl. by destruct (ascii_dec c " ").
    + rewrite append_cons. simpl. destruct (ascii_dec c x); [by apply IH | done].
Qed.

Lemma includes_append_space k a b :
  spaceFree k = true -> k <> "" ->
  includes (a +:+ String " " b) k = includes a k || includes b k.
Proof.
  intros Hfree Hne. induction a as [|x a IH].
  - rewrite append_empty_l.
    change (includes (String " " b) k)
      with (String.prefix k (String " " b) || includes b k).
    rewrite <- (append_empty_l (String " " b)), prefix_append_space by done.
    by destruct k.
  - rewrite append_cons.
    change (includes (String x (a +:+ String " " b)) k)
      with (String.prefix k (String x (a +:+ String " " b))
            || includes (a +:+ String " " b) k).
    rewrite <- append_cons, prefix_append_space, IH by done.
    simpl. by rewrite orb_assoc.
Qed.

Lemma toLowerCase_append a b :
  toLowerCase (a +:+ b) = toLowerCase a +:+ toLowerCase b.
Proof.
  induction a as [|x a IH]; [done|].
  rewrite append_cons. simpl. by rewrite IH.
Qed.

Lemma includes_mealText k c d :
  spaceFree k = true -> k <> "" ->
  includes (mealText c d) k
  = includes (toLowerCase (ToString c)) k || includes (toLowerCase (ToString d)) k.
Proof.
  intros Hfree Hne. unfold mealText.
  rewrite toLowerCase_append.
  change (toLowerCase (" " +:+ ToString d))
    with (String " " (toLowerCase (ToString d))).
  by apply includes_append_space.
Qed.

Lemma fold_push_filter {A} (p : A -> bool) (l acc : list A) :
  fold_left (fun found x => if p x then found ++ [x] else found) l acc
  = acc ++ List.filter p l.
Proof.
  revert acc. induction l as [|x l IH]; intros acc; simpl.
  - by rewrite app_nil_r.
  - rewrite IH. destruct (p x); [by rewrite <- app_assoc | done].
Qed.

Lemma detectMealsInItem_filter c d :
  detectMealsInItem c d = List.filter (includes (mealText c d)) mealKeywords.
Proof. unfold detectMealsInItem. by rewrite fold_push_filter. Qed.

Lemma mealKeywords_spaceFree k :
  k ∈ mealKeywords -> spaceFree k = true /\ k <> "".
Proof.
  unfold mealKeywords. rewrite !elem_of_cons, elem_of_nil.
  intros [->|[->|[->|[->|[]]]]]; by split.
Qed.

Lemma filter_sublist {A} (p : A -> bool) (l : list A) :
  sublist (List.filter p l) l.
Proof.
  induction l as [|x l IH]; simpl; [constructor|].
  destruct (p x); by constructor.
Qed.

Lemma mealKeywords_NoDup : NoDup mealKeywords.
Proof.
  unfold mealKeywords.
  repeat (apply NoDup_cons; split;
          [rewrite ?elem_of_cons, elem_of_nil; intros H; by intuition discriminate|]).
  apply NoDup_nil_2.
Qed.

(** C7.  [detectMealsInItem] is determined by the text of its two
    arguments: equal texts give equal results.  Its result is a
    subsequence of breakfast, brunch, lunch, dinner (so each keyword
    appears at most once, in that order, wherever it occurs in the text),
    it holds exactly the keywords that occur in the lower-cased text, and
    exchanging category and description leaves it unchanged. *)
Theorem detectMealsInItem_order_independent (c d : value) :
  (forall c' d', ToString c' = ToString c -> ToString d' = ToString d ->
     detectMealsInItem c' d' = detectMealsInItem c d)
  /\ sublist (detectMealsInItem c d) ["breakfast"; "brunch"; "lunch"; "dinner"]
  /\ NoDup (detectMealsInItem c d)
  /\ (forall k, k ∈ detectMealsInItem c d
        <-> k ∈ mealKeywords
            /\ includes (toLowerCase (ToString c +:+ " " +:+ ToString d)) k = true)
  /\ detectMealsInItem d c = detectMealsInItem c d.
Proof.
  split_and!.
  - intros c' d' Hc Hd. unfold detectMealsInItem. by rewrite Hc, Hd.
  - rewrite detectMealsInItem_filter. apply filter_sublist.
  - rewrite detectMealsInItem_filter.
    eapply sublist_NoDup; [apply mealKeywords_NoDup | apply filter_sublist].
  - intros k. rewrite detectMealsInItem_filter, !list_elem_of_In, filter_In.
    reflexivity.
  - rewrite !detectMealsInItem_filter.
    apply filter_ext_in. intros k Hk.
    apply list_elem_of_In, mealKeywords_spaceFree in Hk as [Hfree Hne].
    rewrite !includes_mealText by done. apply orb_comm.
Qed.

Lemma detectMealsInItem_order_independent_witness :
  detectMealsInItem (Num 1) (Str "Brunch, then LUNCH")
  = detectMealsInItem (Str "1") (Str "Brunch, then LUNCH").
Proof.
  apply (proj1 (detectMealsInItem_order_independent
                  (Str "1") (Str "Brunch, then LUNCH"))); reflexivity.
Defined.

(** ** Row filter *)

Lemma toString_method_truthy v :
  truthy v = true -> toString_method v = Normal (ToString v).
Proof. by destruct v. Qed.

Lemma Z_toString_nonempty n : Z_toString n <> "".
Proof.
  unfold Z_toString.
  destruct n as [|p|p]; simpl; [done| |done].
  by destruct (Pos.to_uint p).
Qed.

Lemma truthy_filled v : truthy v = Reference.filled v.
Proof.
  destruct v as [| |[]|n|s]; try reflexivity.
  pose proof (Z_toString_nonempty n) as Hn.
  apply String.eqb_neq in Hn.
  destruct n; simpl in *; by rewrite ?Hn.
Qed.

(** The callback never throws: [toString] is only called on cells that
    passed the truthiness test. *)
Lemma rowFilter_usable row :
  Processor.rowFilter row = Normal (Reference.usableRow_js row).
Proof.
  unfold Processor.rowFilter, Reference.usableRow_js, Reference.isLiteral.
  rewrite <- !truthy_filled.
  destruct (truthy (index row 0)) eqn:H0; simpl; [|done].
  destruct (truthy (index row 1)) eqn:H1; simpl; [|done].
  destruct (truthy (index row 5)) eqn:H5; simpl; [|done].
  rewrite !toString_method_truthy by done. simpl.
  destruct (String.eqb (toLowerCase (trim (ToString (index row 0)))) "day"); simpl; done.
Qed.

Lemma Array_filter_total {A} (f : A -> completion bool) (p : A -> bool) arr :
  (forall x, f x = Normal (p x)) ->
  Array_filter f arr = Normal (List.filter p arr).
Proof.
  intros Hf. induction arr as [|x arr IH]; simpl; [done|].
  rewrite Hf, IH. simpl. by destruct (p x).
Qed.

Lemma filteredRows_usable data :
  filteredRows data = Normal (Reference.filterRows_js data).
Proof. apply Array_filter_total, rowFilter_usable. Qed.

(** ** Day grouper *)

Lemma groupRow_own grouped row d :
  grouped !! keyOf row = Some d ->
  groupRow grouped row = Normal (<[keyOf row := absorb d row]> grouped).
Proof.
  intros Hd. unfold groupRow, Get. fold (keyOf row). by rewrite Hd; simpl; rewrite Hd.
Qed.

Lemma groupRow_fresh grouped row :
  grouped !! keyOf row = None ->
  keyOf row ∉ Object_prototype_keys ->
  groupRow grouped row = Normal (<[keyOf row := absorb (newDay row) row]> grouped).
Proof.
  intros Hnone Hkey. unfold groupRow, Get. fold (keyOf row).
  rewrite Hnone.
  destruct (bool_decide _) eqn:E; [by apply bool_decide_eq_true in E|].
  rewrite lookup_insert_eq. by rewrite insert_insert_eq.
Qed.

Lemma groupRow_inherited grouped row :
  grouped !! keyOf row = None ->
  keyOf row ∈ Object_prototype_keys ->
  groupRow grouped row
  = Throw (TypeError "Cannot read properties of undefined (reading 'push')").
Proof.
  intros Hnone Hkey. unfold groupRow, Get. fold (keyOf row).
  rewrite Hnone.
  destruct (bool_decide _) eqn:E; [|by apply bool_decide_eq_false in E].
  by rewrite Hnone.
Qed.

(** A successful step inserts the absorbing bucket at the row's key. *)
Lemma groupRow_Normal grouped row grouped' :
  groupRow grouped row = Normal grouped' ->
  exists d, grouped' = <[keyOf row := absorb d row]> grouped
    /\ (grouped !! keyOf row = Some d
        \/ grouped !! keyOf row = None /\ d = newDay row
           /\ keyOf row ∉ Object_prototype_keys).
Proof.
  intros Hstep.
  destruct (grouped !! keyOf row) as [d|] eqn:Hlook.
  - rewrite (groupRow_own _ _ d) in Hstep by done. injection Hstep as <-. eauto.
  - destruct (decide (keyOf row ∈ Object_prototype_keys)) as [Hin|Hout].
    + by rewrite groupRow_inherited in Hstep.
    + rewrite groupRow_fresh in Hstep by done. injection Hstep as <-.
      exists (newDay row). eauto.
Qed.

(** *** Fields of a bucket as rows are absorbed *)

Lemma fold_addMeal_fields meals d :
  day (fold_left addMeal meals d) = day d
  /\ city (fold_left addMeal meals d) = city d
  /\ date (fold_left addMeal meals d) = date d
  /\ items (fold_left addMeal meals d) = items d
  /\ allMeals (fold_left addMeal meals d) = fold_left Set_add meals (allMeals d).
Proof.
  revert d. induction meals as [|m meals IH]; intros d; simpl; [done|].
  destruct (IH (addMeal d m)) as (-> & -> & -> & -> & ->). done.
Qed.

Lemma absorb_fields d row :
  day (absorb d row) = day d /\ city (absorb d row) = city d
  /\ date (absorb d row) = date d
  /\ items (absorb d row) = items d ++ [newItem row]
  /\ allMeals (absorb d row)
     = fold_left Set_add (detectMealsInItem (index row 4) (index row 5)) (allMeals d).
Proof.
  unfold absorb.
  destruct (fold_addMeal_fields (detectMealsInItem (index row 4) (index row 5))
              (pushItem d (newItem row))) as (-> & -> & -> & -> & ->).
  done.
Qed.

Lemma fold_absorb_fields rows d :
  day (fold_left absorb rows d) = day d
  /\ city (fold_left absorb rows d) = city d
  /\ date (fold_left absorb rows d) = date d
  /\ items (fold_left absorb rows d) = items d ++ map newItem rows.
Proof.
  revert d. induction rows as [|row rows IH]; intros d; simpl.
  - by rewrite app_nil_r.
  - destruct (IH (absorb d row)) as (-> & -> & -> & ->).
    destruct (absorb_fields d row) as (-> & -> & -> & -> & _).
    by rewrite <- app_assoc.
Qed.

(** *** The bucket of a day key, read off the filtered rows *)

Lemma rowsOf_cons_eq row rows : rowsOf (keyOf row) (row :: rows) = row :: rowsOf (keyOf row) rows.
Proof. unfold rowsOf. simpl. by rewrite String.eqb_refl. Qed.

Lemma rowsOf_cons_ne k row rows :
  keyOf row <> k -> rowsOf k (row :: rows) = rowsOf k rows.
Proof.
  intros Hne. unfold rowsOf. simpl.
  apply String.eqb_neq in Hne. by rewrite Hne.
Qed.

(** After the traversal, the bucket stored under [k] is the bucket that was
    there, or a new one made from the first row with key [k], having
    absorbed the rows with key [k] in order. *)
Lemma groupRows_lookup rows grouped grouped' k :
  Array_forEach groupRow rows grouped = Normal grouped' ->
  grouped' !! k
  = match grouped !! k with
    | Some d => Some (fold_left absorb (rowsOf k rows) d)
    | None => bucketOf k rows
    end.
Proof.
  revert grouped. induction rows as [|row rows IH]; intros grouped Hrun.
  - simpl in Hrun. injection Hrun as <-. unfold bucketOf. simpl.
    by destruct (grouped !! k).
  - simpl in Hrun.
    destruct (groupRow grouped row) as [grouped1|e] eqn:Hstep; [|done].
    simpl in Hrun. rewrite (IH _ Hrun).
    apply groupRow_Normal in Hstep as (d & -> & Hcase).
    destruct (decide (keyOf row = k)) as [<-|Hne].
    + rewrite lookup_insert_eq, rowsOf_cons_eq.
      destruct Hcase as [Hown|(Hnone & -> & _)].
      * by rewrite Hown.
      * rewrite Hnone. unfold bucketOf. by rewrite rowsOf_cons_eq.
    + rewrite lookup_insert_ne by done.
      unfold bucketOf. by rewrite rowsOf_cons_ne.
Qed.

Lemma groupRows_bucket rows grouped k :
  Array_forEach groupRow rows ∅ = Normal grouped ->
  grouped !! k = bucketOf k rows.
Proof.
  intros Hrun. rewrite (groupRows_lookup _ _ _ k Hrun). by rewrite lookup_empty.
Qed.

(** The first row of [rowsOf k rows] is the first row of [rows] with key [k]. *)
Lemma rowsOf_first k rows row rest :
  rowsOf k rows = row :: rest ->
  exists before after,
    rows = before ++ row :: after
    /\ keyOf row = k
    /\ (forall r, r ∈ before -> keyOf r <> k)
    /\ rest = rowsOf k after.
Proof.
  induction rows as [|r rows IH]; [done|].
  destruct (decide (keyOf r = k)) as [<-|Hne].
  - rewrite rowsOf_cons_eq. intros [= -> <-].
    exists [], rows. split_and!; try done. intros r' Hr'. by apply elem_of_nil in Hr'.
  - rewrite rowsOf_cons_ne by done. intros Hrows.
    destruct (IH Hrows) as (before & after & -> & Hkey & Hbefore & Hrest).
    exists (r :: before), after. split_and!; try done.
    intros r' [->|Hr']%elem_of_cons; [done | by apply Hbefore].
Qed.

Lemma elem_of_rowsOf k rows row :
  row ∈ rowsOf k rows <-> row ∈ rows /\ keyOf row = k.
Proof.
  unfold rowsOf. rewrite !list_elem_of_In, filter_In.
  by rewrite String.eqb_eq.
Qed.

(** *** Meals of a bucket *)

Lemma Set_add_elem_of set x m : m ∈ Set_add set x <-> m ∈ set \/ m = x.
Proof.
  unfold Set_add. case_bool_decide as Hin.
  - split; [by left|]. by intros [?| ->].
  - rewrite elem_of_app, list_elem_of_singleton. done.
Qed.

Lemma Set_add_NoDup set x : NoDup set -> NoDup (Set_add set x).
Proof.
  intros Hset. unfold Set_add. case_bool_decide as Hin; [done|].
  apply NoDup_app. split_and!; [done| |apply NoDup_singleton].
  intros y Hy ->%list_elem_of_singleton. done.
Qed.

Lemma fold_Set_add_elem_of meals set m :
  m ∈ fold_left Set_add meals set <-> m ∈ set \/ m ∈ meals.
Proof.
  revert set. induction meals as [|x meals IH]; intros set; simpl.
  - rewrite elem_of_nil. tauto.
  - rewrite IH, Set_add_elem_of, elem_of_cons. tauto.
Qed.

Lemma fold_Set_add_NoDup meals set :
  NoDup set -> NoDup (fold_left Set_add meals set).
Proof.
  revert set. induction meals as [|x meals IH]; intros set Hset; simpl; [done|].
  by apply IH, Set_add_NoDup.
Qed.

Lemma newDay_mealsOK row : mealsOK (newDay row).
Proof.
  split; simpl; [apply NoDup_nil_2|].
  intros m. rewrite elem_of_nil. split; [done|].
  intros (item & Hitem & _). by apply elem_of_nil in Hitem.
Qed.

Lemma absorb_mealsOK d row : mealsOK d -> mealsOK (absorb d row).
Proof.
  intros [Hnodup Hmeals].
  destruct (absorb_fields d row) as (_ & _ & _ & Hitems & Hall).
  split.
  - rewrite Hall. by apply fold_Set_add_NoDup.
  - intros m. rewrite Hall, Hitems, fold_Set_add_elem_of, Hmeals. split.
    + intros [(item & Hitem & Hm)|Hm].
      * exists item. split; [apply elem_of_app; by left | done].
      * exists (newItem row). split; [|done].
        apply elem_of_app. right. by apply list_elem_of_singleton.
    + intros (item & [Hitem| ->%list_elem_of_singleton]%elem_of_app & Hm).
      * left. eauto.
      * by right.
Qed.

Lemma fold_absorb_mealsOK rows d : mealsOK d -> mealsOK (fold_left absorb rows d).
Proof.
  revert d. induction rows as [|row rows IH]; intros d Hd; simpl; [done|].
  by apply IH, absorb_mealsOK.
Qed.

(** *** Counting items *)

Lemma totalItems_insert_fresh grouped k d :
  grouped !! k = None ->
  totalItems (<[k := d]> grouped) = (List.length (items d) + totalItems grouped)%nat.
Proof.
  intros Hnone. unfold totalItems.
  by rewrite (map_to_list_insert grouped k d Hnone).
Qed.

Lemma totalItems_insert_own grouped k d0 d :
  grouped !! k = Some d0 ->
  (totalItems (<[k := d]> grouped) + List.length (items d0))%nat
  = (List.length (items d) + totalItems grouped)%nat.
Proof.
  intros Hown.
  pose proof (totalItems_insert_fresh (delete k grouped) k d
                (lookup_delete_eq grouped k)) as Hnew.
  pose proof (totalItems_insert_fresh (delete k grouped) k d0
                (lookup_delete_eq grouped k)) as Hold.
  rewrite insert_delete_eq in Hnew.
  rewrite insert_delete_id in Hold by done.
  lia.
Qed.

Lemma groupRow_total grouped row grouped' :
  groupRow grouped row = Normal grouped' ->
  totalItems grouped' = S (totalItems grouped).
Proof.
  intros (d & -> & Hcase)%groupRow_Normal.
  destruct (absorb_fields d row) as (_ & _ & _ & Hitems & _).
  destruct Hcase as [Hown|(Hnone & -> & _)].
  - pose proof (totalItems_insert_own grouped (keyOf row) d (absorb d row) Hown) as Htot.
    rewrite Hitems, length_app in Htot. simpl in Htot. lia.
  - rewrite totalItems_insert_fresh, Hitems by done. reflexivity.
Qed.

Lemma groupRows_total rows grouped grouped' :
  Array_forEach groupRow rows grouped = Normal grouped' ->
  totalItems grouped' = (totalItems grouped + List.length rows)%nat.
Proof.
  revert grouped. induction rows as [|row rows IH]; intros grouped Hrun; simpl in Hrun.
  - injection Hrun as <-. simpl. lia.
  - destruct (groupRow grouped row) as [grouped1|e] eqn:Hstep; [|done].
    simpl in Hrun. rewrite (IH _ Hrun), (groupRow_total _ _ _ Hstep). simpl. lia.
Qed.

(** *** When the traversal returns *)

Lemma groupRow_noOwnInherited grouped row grouped' :
  noOwnInherited grouped ->
  groupRow grouped row = Normal grouped' ->
  noOwnInherited grouped'.
Proof.
  intros Hinv (d & -> & Hcase)%groupRow_Normal k Hk.
  destruct (decide (keyOf row = k)) as [<-|Hne].
  - destruct Hcase as [Hown|(_ & _ & Hout)]; [|done].
    rewrite (Hinv _ Hk) in Hown. done.
  - rewrite lookup_insert_ne by done. by apply Hinv.
Qed.

Lemma groupRows_returns rows grouped :
  (forall row, row ∈ rows -> keyOf row ∉ Object_prototype_keys) ->
  exists grouped', Array_forEach groupRow rows grouped = Normal grouped'.
Proof.
  revert grouped. induction rows as [|row rows IH]; intros grouped Hkeys; simpl.
  - eauto.
  - assert (exists grouped1, groupRow grouped row = Normal grouped1) as [grouped1 ->].
    { destruct (grouped !! keyOf row) as [d|] eqn:Hlook.
      - rewrite (groupRow_own _ _ d) by done. eauto.
      - rewrite groupRow_fresh; [eauto|done|]. apply Hkeys, list_elem_of_here. }
    simpl. apply IH. intros r Hr. apply Hkeys. by apply list_elem_of_further.
Qed.

Lemma groupRows_throws rows grouped row :
  noOwnInherited grouped ->
  row ∈ rows -> keyOf row ∈ Object_prototype_keys ->
  Array_forEach groupRow rows grouped
  = Throw (TypeError "Cannot read properties of undefined (reading 'push')").
Proof.
  revert grouped. induction rows as [|r rows IH]; intros grouped Hinv Hin Hkey.
  - by apply elem_of_nil in Hin.
  - simpl. destruct (groupRow grouped r) as [grouped1|e] eqn:Hstep; simpl.
    + apply elem_of_cons in Hin as [->|Hin].
      * rewrite groupRow_inherited in Hstep; [done|by apply Hinv|done].
      * apply IH; [by eapply groupRow_noOwnInherited|done..].
    + destruct (grouped !! keyOf r) as [d|] eqn:Hlook.
      * by rewrite (groupRow_own _ _ d) in Hstep.
      * destruct (decide (keyOf r ∈ Object_prototype_keys)) as [Hr|Hr].
        -- rewrite groupRow_inherited in Hstep by done. by injection Hstep as <-.
        -- by rewrite groupRow_fresh in Hstep.
Qed.

(** *** Unfolding the entry point *)

Lemma processItineraryData_Normal data r :
  processItineraryData data = Normal r ->
  exists rows,
    filteredRows data = Normal rows
    /\ Array_forEach groupRow rows ∅ = Normal (days r)
    /\ title r = tripTitle data.
Proof.
  unfold processItineraryData.
  destruct (filteredRows data) as [rows|e]; simpl; [|done].
  destruct (Array_forEach groupRow rows ∅) as [grouped|e] eqn:Hrun; simpl; [|done].
  intros [= <-]. exists rows. by rewrite Hrun.
Qed.

(** The call returns exactly when no filtered row has a day key that names
    a member of [Object.prototype]. *)
Lemma processItineraryData_returns data :
  (exists r, processItineraryData data = Normal r)
  <-> (forall row, row ∈ Reference.filterRows_js data ->
         keyOf row ∉ Object_prototype_keys).
Proof.
  unfold processItineraryData. rewrite filteredRows_usable. simpl. split.
  - intros [r Hr] row Hrow Hkey.
    rewrite (groupRows_throws _ ∅ row) in Hr; [done| |done..].
    intros k _. apply lookup_empty.
  - intros Hkeys.
    destruct (groupRows_returns _ ∅ Hkeys) as [grouped ->]. simpl. eauto.
Qed.

Lemma processItineraryData_total_items data rows r :
  filteredRows data = Normal rows ->
  processItineraryData data = Normal r ->
  totalItems (days r) = List.length rows.
Proof.
  intros Hrows (rows' & Hrows' & Hrun & _)%processItineraryData_Normal.
  rewrite Hrows in Hrows'. injection Hrows' as <-.
  by rewrite (groupRows_total _ _ _ Hrun).
Qed.

Lemma sampleGrid_filtered :
  filteredRows sampleGrid = Normal [parisRow; lyonRow; romeRow].
Proof. reflexivity. Qed.

Lemma sampleGrid_processed : processItineraryData sampleGrid = Normal sampleResult.
Proof. vm_compute. reflexivity. Qed.

(** ** Claims about the row filter and the day grouper *)

(** The grids of the worked examples hold cells of the model only. *)
Example example_grids_inModel :
  forallb (forallb inModel)
    (sampleGrid ++ dayZeroGrid ++ dayZeroTextGrid ++ inheritedKeyGrid
     ++ rejectedGrid ++ zeroTitleGrid) = true.
Proof. reflexivity. Qed.

(** C3 (the code at a failing input).  The row with the numeric day 0 has
    a day, a city and a description that are neither null, undefined nor
    the empty string after string coercion, and is not a header row: the
    contract keeps it.  The code drops it, so that the itinerary has no
    days; it keeps the same row when the day arrives as the text "0", as it
    does from a CSV file. *)
Lemma filteredRows_drops_day_zero :
  Reference.filterRows dayZeroGrid = [dayZeroRow]
  /\ filteredRows dayZeroGrid = Normal []
  /\ filteredRows dayZeroGrid <> Normal (Reference.filterRows dayZeroGrid)
  /\ processItineraryData dayZeroGrid
     = Normal {| title := Str "European Vacation"; days := ∅ |}
  /\ filteredRows dayZeroTextGrid = Normal [dayZeroTextRow]
  /\ filteredRows dayZeroTextGrid = Normal (Reference.filterRows dayZeroTextGrid).
Proof. split_and!; solve [reflexivity | discriminate]. Qed.

(** The filter as the code has it.  After the first two rows of the grid,
    the rows kept are those whose day, city and description cells pass the
    truthiness test of [&&] and whose day and city, trimmed and
    lower-cased, are not "day" and "city"; every other row is dropped
    without throwing, and only the kept rows reach the grouper. *)
Lemma filteredRows_keeps_usable_rows (data : list (list value)) :
  filteredRows data
  = Normal (List.filter Reference.usableRow_js (drop 2 data))
  /\ processItineraryData data
     = JS.bind (Array_forEach groupRow
                  (List.filter Reference.usableRow_js (drop 2 data)) ∅)
         (fun grouped => Normal {| title := tripTitle data; days := grouped |}).
Proof.
  split.
  - apply filteredRows_usable.
  - unfold processItineraryData. by rewrite filteredRows_usable.
Qed.

(** On cells other than the number 0 and [false] the two notions of an
    empty cell coincide. *)
Lemma filled_nonEmpty v :
  v <> Num 0 -> v <> Bool false -> Reference.filled v = Reference.nonEmpty v.
Proof. intros Hnum Hbool. destruct v as [| |[]|[]|]; done. Qed.

Lemma usableRow_js_usableRow row :
  Forall (fun cell => cell <> Num 0 /\ cell <> Bool false)
    [index row 0; index row 1; index row 5] ->
  Reference.usableRow_js row = Reference.usableRow row.
Proof.
  intros Hcells. unfold Reference.usableRow_js, Reference.usableRow.
  apply Forall_cons in Hcells as [[? ?] Hcells].
  apply Forall_cons in Hcells as [[? ?] Hcells].
  apply Forall_cons in Hcells as [[? ?] _].
  by rewrite !filled_nonEmpty.
Qed.

(** The grid of the specification's end-to-end example. *)
Example processItineraryData_european_vacation :
  processItineraryData
    (headerRows ++
     [ [Str "1"; Str "Paris"; Str "2025-05-01"; Str "09:00"; Str "Sightseeing";
        Str "Eiffel Tower visit"];
       [Str "1"; Str "Paris"; Str "2025-05-01"; Str "12:30"; Str "Food";
        Str "Lunch at Cafe"];
       romeRow ])
  = Normal
      {| title := Str "European Vacation";
         days :=
           <["2" := dayTwo]>
             (<["1" :=
                  {| day := Str "1"; city := Str "Paris"; date := Str "2025-05-01";
                     items :=
                       [ {| timing := "09:00"; category := Str "Sightseeing";
                            description := Str "Eiffel Tower visit" |};
                         {| timing := "12:30"; category := Str "Food";
                            description := Str "Lunch at Cafe" |} ];
                     allMeals := ["lunch"] |}]> ∅) |}.
Proof. vm_compute. reflexivity. Qed.

(** C4.  In a returned itinerary, the bucket stored under a day key has the
    day, city and date cells of the first filtered row with that key,
    whatever the later rows with the same key hold. *)
Theorem processItineraryData_first_row_wins
    (data rows : list (list value)) (r : ItineraryData) (k : string) (d : DayData) :
  filteredRows data = Normal rows ->
  processItineraryData data = Normal r ->
  days r !! k = Some d ->
  exists before row after,
    rows = before ++ row :: after
    /\ ToString (index row 0) = k
    /\ (forall earlier, earlier ∈ before -> ToString (index earlier 0) <> k)
    /\ day d = index row 0 /\ city d = index row 1 /\ date d = index row 2.
Proof.
  intros Hrows (rows' & Hrows' & Hrun & _)%processItineraryData_Normal Hd.
  rewrite Hrows in Hrows'. injection Hrows' as <-.
  rewrite (groupRows_bucket _ _ k Hrun) in Hd. unfold bucketOf in Hd.
  destruct (rowsOf k rows) as [|row rest] eqn:Hk; [done|].
  injection Hd as <-.
  apply rowsOf_first in Hk as (before & after & -> & Hkey & Hbefore & _).
  exists before, row, after.
  destruct (fold_absorb_fields (row :: rest) (newDay row))
    as (Hday & Hcity & Hdate & _).
  simpl in Hday, Hcity, Hdate. by split_and!.
Qed.

Lemma processItineraryData_first_row_wins_witness :
  exists before row after,
    [parisRow; lyonRow; romeRow] = before ++ row :: after
    /\ ToString (index row 0) = "1"
    /\ (forall earlier, earlier ∈ before -> ToString (index earlier 0) <> "1")
    /\ day dayOne = index row 0 /\ city dayOne = index row 1
    /\ date dayOne = index row 2.
Proof.
  apply (processItineraryData_first_row_wins sampleGrid _ sampleResult "1" dayOne).
  - reflexivity.
  - vm_compute. reflexivity.
  - vm_compute. reflexivity.
Defined.

(** C5.  In a returned itinerary, the meals of every bucket have no
    duplicates and are exactly the keywords [detectMealsInItem] finds in
    some item of that bucket. *)
Theorem processItineraryData_allMeals
    (data : list (list value)) (r : ItineraryData) (k : string) (d : DayData) :
  processItineraryData data = Normal r ->
  days r !! k = Some d ->
  NoDup (allMeals d)
  /\ forall m, m ∈ allMeals d
       <-> exists item, item ∈ items d
             /\ m ∈ detectMealsInItem (category item) (description item).
Proof.
  intros (rows & _ & Hrun & _)%processItineraryData_Normal Hd.
  rewrite (groupRows_bucket _ _ k Hrun) in Hd. unfold bucketOf in Hd.
  destruct (rowsOf k rows) as [|row rest]; [done|].
  injection Hd as <-.
  apply (fold_absorb_mealsOK (row :: rest)), newDay_mealsOK.
Qed.

Lemma processItineraryData_allMeals_witness :
  NoDup ["brunch"; "lunch"]
  /\ forall m, m ∈ ["brunch"; "lunch"]
       <-> exists item, item ∈ [newItem parisRow; newItem lyonRow]
             /\ m ∈ detectMealsInItem (category item) (description item).
Proof.
  apply (processItineraryData_allMeals sampleGrid sampleResult "1" dayOne).
  - vm_compute. reflexivity.
  - vm_compute. reflexivity.
Defined.

(** The items of a bucket are the items of the filtered rows with its key,
    in row order. *)
Lemma groupRows_items rows grouped k d :
  Array_forEach groupRow rows ∅ = Normal grouped ->
  grouped !! k = Some d ->
  items d = map newItem (rowsOf k rows).
Proof.
  intros Hrun Hd.
  rewrite (groupRows_bucket _ _ k Hrun) in Hd. unfold bucketOf in Hd.
  destruct (rowsOf k rows) as [|row rest]; [done|].
  injection Hd as <-.
  by destruct (fold_absorb_fields (row :: rest) (newDay row)) as (_ & _ & _ & Hitems).
Qed.

Lemma groupRows_row_bucket rows grouped row :
  Array_forEach groupRow rows ∅ = Normal grouped ->
  row ∈ rows ->
  exists d, grouped !! keyOf row = Some d /\ newItem row ∈ items d.
Proof.
  intros Hrun Hrow.
  assert (row ∈ rowsOf (keyOf row) rows) as Hin by by apply elem_of_rowsOf.
  destruct (grouped !! keyOf row) as [d|] eqn:Hd.
  - exists d. split; [done|].
    rewrite (groupRows_items _ _ _ _ Hrun Hd). by apply list_elem_of_fmap_2.
  - rewrite (groupRows_bucket _ _ _ Hrun) in Hd. unfold bucketOf in Hd.
    destruct (rowsOf (keyOf row) rows); [by apply elem_of_nil in Hin | done].
Qed.

(** C6 (the code at a failing input).  The single data row of
    [inheritedKeyGrid] passes the filter, so the claim expects a result
    with one item; the day label "constructor" names a member of
    [Object.prototype], no bucket is created for it, and the call throws. *)
Theorem processItineraryData_inherited_key_throws :
  filteredRows inheritedKeyGrid = Normal [inheritedKeyRow]
  /\ processItineraryData inheritedKeyGrid
     = Throw (TypeError "Cannot read properties of undefined (reading 'push')").
Proof. split; reflexivity. Qed.

(** C8 (the code, with the failing input).  The empty grid, and any grid
    all of whose data rows the filter rejects, give an itinerary with no
    days, without an exception.  The title is the cell [grid[0][1]] when
    that cell passes the truthiness test of [||], which every text but the
    empty one does, the text "0" included; it is "Travel Itinerary" when
    there is no first row, when the cell is absent, null or the empty
    text, and whenever the cell is not the title.  At a title cell that
    holds the number 0 or [false] the cell is there, and the title is
    "Travel Itinerary" all the same, not the cell. *)
Theorem processItineraryData_no_data_rows :
  processItineraryData [] = Normal {| title := Str "Travel Itinerary"; days := ∅ |}
  /\ (forall data,
        Forall (fun row => Processor.rowFilter row = Normal false) (drop 2 data) ->
        processItineraryData data = Normal {| title := tripTitle data; days := ∅ |})
  /\ (forall row0 rest,
        truthy (index row0 1) = true -> tripTitle (row0 :: rest) = index row0 1)
  /\ (forall row0 rest s,
        index row0 1 = Str s -> s <> "" -> tripTitle (row0 :: rest) = Str s)
  /\ (forall row0 rest,
        index row0 1 = Undefined \/ index row0 1 = Null \/ index row0 1 = Str "" ->
        tripTitle (row0 :: rest) = Str "Travel Itinerary")
  /\ tripTitle [] = Str "Travel Itinerary"
  /\ (forall row0 rest,
        tripTitle (row0 :: rest) <> index row0 1 ->
        tripTitle (row0 :: rest) = Str "Travel Itinerary")
  /\ (forall row0 rest,
        index row0 1 = Num 0 \/ index row0 1 = Bool false ->
        tripTitle (row0 :: rest) = Str "Travel Itinerary"
        /\ tripTitle (row0 :: rest) <> index row0 1)
  /\ index [Str "Title"; Num 0] 1 = Num 0
  /\ processItineraryData zeroTitleGrid
     = Normal {| title := Str "Travel Itinerary"; days := ∅ |}
  /\ processItineraryData (titleGrid (Str "0")) = Normal {| title := Str "0"; days := ∅ |}.
Proof.
  split_and!; try reflexivity.
  - intros data Hrejected. unfold processItineraryData, filteredRows.
    assert (Array_filter Processor.rowFilter (drop 2 data) = Normal []) as ->; [|done].
    induction Hrejected as [|row rows Hrow _ IH]; simpl; [done|].
    by rewrite Hrow, IH.
  - intros row0 rest Htruthy. unfold tripTitle. by rewrite Htruthy.
  - intros row0 rest s Hcell Hs. unfold tripTitle. rewrite Hcell. simpl.
    destruct (String.eqb_spec s ""); done.
  - intros row0 rest Hcell. unfold tripTitle.
    by destruct Hcell as [-> | [-> | ->]].
  - intros row0 rest. unfold tripTitle.
    by destruct (truthy (index row0 1)).
  - intros row0 rest Hcell. unfold tripTitle.
    by destruct Hcell as [-> | ->].
Qed.

Lemma processItineraryData_no_data_rows_witness :
  processItineraryData rejectedGrid
  = Normal {| title := Str "European Vacation"; days := ∅ |}
  /\ tripTitle sampleGrid = Str "European Vacation"
  /\ tripTitle (titleGrid (Str "0")) = Str "0"
  /\ tripTitle [[Str "Title"]; [Str "Day"; Str "City"]] = Str "Travel Itinerary"
  /\ tripTitle (titleGrid (Str "")) = Str "Travel Itinerary"
  /\ tripTitle (titleGrid Null) = Str "Travel Itinerary"
  /\ tripTitle (titleGrid (Bool false)) = Str "Travel Itinerary"
  /\ (tripTitle zeroTitleGrid = Str "Travel Itinerary"
      /\ tripTitle zeroTitleGrid <> Num 0).
Proof.
  destruct processItineraryData_no_data_rows
    as (_ & Hrejected & Hread & Htext & Habsent & _ & Hdefault & Hfalsy & _).
  split_and!.
  - apply (Hrejected rejectedGrid). repeat constructor.
  - apply (Hread [Str "Title"; Str "European Vacation"]). reflexivity.
  - apply (Htext [Str "Title"; Str "0"] _ "0"); [reflexivity | discriminate].
  - apply (Habsent [Str "Title"]). left. reflexivity.
  - apply (Habsent [Str "Title"; Str ""]). right. right. reflexivity.
  - apply (Habsent [Str "Title"; Null]). right. left. reflexivity.
  - apply (Hdefault [Str "Title"; Bool false]). discriminate.
  - apply (Hfalsy [Str "Title"; Num 0]). left. reflexivity.
  - apply (Hfalsy [Str "Title"; Num 0]). left. reflexivity.
Defined.

(** C10.  The day cell is used as a property key, that is, through its
    string form: a filtered row whose day is the number 1 and a filtered
    row whose day is the string "1" both have key "1", and in a returned
    itinerary their items are in one and the same bucket. *)
Theorem processItineraryData_number_and_string_day
    (data rows : list (list value)) (r : ItineraryData) (row1 row2 : list value) :
  filteredRows data = Normal rows ->
  processItineraryData data = Normal r ->
  row1 ∈ rows -> row2 ∈ rows ->
  index row1 0 = Num 1 -> index row2 0 = Str "1" ->
  ToString (index row1 0) = "1" /\ ToString (index row2 0) = "1"
  /\ exists d, days r !! "1" = Some d
       /\ newItem row1 ∈ items d /\ newItem row2 ∈ items d.
Proof.
  intros Hrows (rows' & Hrows' & Hrun & _)%processItineraryData_Normal
    Hrow1 Hrow2 Hnum Hstr.
  rewrite Hrows in Hrows'. injection Hrows' as <-.
  rewrite Hnum, Hstr. split_and!; try reflexivity.
  destruct (groupRows_row_bucket _ _ _ Hrun Hrow1) as (d1 & Hd1 & Hitem1).
  destruct (groupRows_row_bucket _ _ _ Hrun Hrow2) as (d2 & Hd2 & Hitem2).
  unfold keyOf in Hd1, Hd2. rewrite Hnum in Hd1. rewrite Hstr in Hd2.
  change (ToString (Num 1)) with "1" in Hd1. change (ToString (Str "1")) with "1" in Hd2.
  rewrite Hd1 in Hd2. injection Hd2 as <-.
  exists d1. by split_and!.
Qed.

Lemma processItineraryData_number_and_string_day_witness :
  ToString (index parisRow 0) = "1" /\ ToString (index lyonRow 0) = "1"
  /\ exists d, days sampleResult !! "1" = Some d
       /\ newItem parisRow ∈ items d /\ newItem lyonRow ∈ items d.
Proof.
  apply (processItineraryData_number_and_string_day
           sampleGrid [parisRow; lyonRow; romeRow] sampleResult parisRow lyonRow).
  - reflexivity.
  - vm_compute. reflexivity.
  - apply list_elem_of_here.
  - apply list_elem_of_further, list_elem_of_here.
  - reflexivity.
  - reflexivity.
Defined.

(** * Properties of the further functions *)

(** ** Splitting and joining *)

Lemma append_empty_r (a : string) : a +:+ "" = a.
Proof. induction a as [|x a IH]; [done|]. by rewrite append_cons, IH. Qed.

Lemma splitFrom_nonempty sep piece s : splitFrom sep piece s <> [].
Proof.
  revert piece. induction s as [|c s IH]; intros piece; simpl; [done|].
  destruct (Ascii.eqb c sep); [done | apply IH].
Qed.

Lemma splitFrom_append sep piece a b :
  splitFrom sep piece (a +:+ String sep b)
  = splitFrom sep piece a ++ splitFrom sep EmptyString b.
Proof.
  revert piece. induction a as [|c a IH]; intros piece.
  - rewrite append_empty_l. simpl. by rewrite Ascii.eqb_refl.
  - rewrite append_cons. simpl. destruct (Ascii.eqb c sep); simpl; by rewrite IH.
Qed.

Lemma join_cons sep x y rest :
  join sep (x :: y :: rest) = x +:+ sep +:+ join sep (y :: rest).
Proof. reflexivity. Qed.

(** Joining the pieces with the separator gives the string back. *)
Lemma join_splitFrom sep piece s :
  join (String sep "") (splitFrom sep piece s) = piece +:+ s.
Proof.
  revert piece. induction s as [|c s IH]; intros piece; simpl.
  - by rewrite append_empty_r.
  - destruct (Ascii.eqb c sep) eqn:Hc.
    + apply Ascii.eqb_eq in Hc as ->.
      destruct (splitFrom sep "" s) as [|first rest] eqn:Hs;
        [by apply splitFrom_nonempty in Hs|].
      rewrite join_cons, <- Hs, IH. reflexivity.
    + rewrite IH, append_assoc. reflexivity.
Qed.

Lemma splitFrom_length sep piece s :
  List.length (splitFrom sep piece s) = S (occurrences sep s).
Proof.
  revert piece. induction s as [|c s IH]; intros piece; simpl; [done|].
  destruct (Ascii.eqb c sep); simpl; by rewrite IH.
Qed.

Lemma freeOf_append c a b : freeOf c (a +:+ b) = freeOf c a && freeOf c b.
Proof.
  induction a as [|x a IH]; [done|].
  rewrite append_cons. simpl. by rewrite IH, andb_assoc.
Qed.

Lemma splitFrom_freeOf c sep piece s :
  freeOf c piece = true -> freeOf c s = true ->
  Forall (fun p => freeOf c p = true) (splitFrom sep piece s).
Proof.
  revert piece. induction s as [|x s IH]; intros piece Hpiece Hs; simpl.
  - by constructor.
  - simpl in Hs. apply andb_prop in Hs as [Hx Hs].
    destruct (Ascii.eqb x sep).
    + constructor; [done|]. by apply IH.
    + apply IH; [|done]. rewrite freeOf_append, Hpiece. simpl. by rewrite Hx.
Qed.

(** ** parseCSV *)

Lemma fold_lineStep cs st :
  let st' := fold_left lineStep cs st in
  result st' ++ [currentValue st']
  = result st ++ fieldsFrom (inQuote st) (currentValue st) cs.
Proof.
  revert st. induction cs as [|c cs IH]; intros st; simpl; [done|].
  rewrite IH. unfold lineStep.
  destruct (Ascii.eqb c quote); simpl; [done|].
  destruct (Ascii.eqb c comma && negb (inQuote st)); simpl; [|done].
  by rewrite <- app_assoc.
Qed.

Lemma parseLine_fieldsFrom line :
  parseLine line = fieldsFrom false "" (list_ascii_of_string line).
Proof. unfold parseLine. by rewrite fold_lineStep. Qed.

Lemma fieldsFrom_nonempty q cur cs : fieldsFrom q cur cs <> [].
Proof.
  revert q cur. induction cs as [|c cs IH]; intros q cur; simpl; [done|].
  destruct (Ascii.eqb c quote); [apply IH|].
  destruct (Ascii.eqb c comma && negb q); [done | apply IH].
Qed.

Lemma fieldsFrom_quote_free q cur cs :
  freeOf quote cur = true ->
  Forall (fun field => freeOf quote field = true) (fieldsFrom q cur cs).
Proof.
  revert q cur. induction cs as [|c cs IH]; intros q cur Hcur; simpl.
  - by constructor.
  - destruct (Ascii.eqb c quote) eqn:Hq; [by apply IH|].
    destruct (Ascii.eqb c comma && negb q).
    + constructor; [done | by apply IH].
    + apply IH. rewrite freeOf_append, Hcur. simpl. by rewrite Hq.
Qed.

(** Without quotes in the line, the fields are the pieces between the
    commas. *)
Lemma fieldsFrom_plain cur s :
  freeOf quote s = true ->
  fieldsFrom false cur (list_ascii_of_string s) = splitFrom comma cur s.
Proof.
  revert cur. induction s as [|c s IH]; intros cur Hs; simpl; [done|].
  simpl in Hs. apply andb_prop in Hs as [Hc Hs].
  apply negb_true_iff in Hc. rewrite Hc.
  destruct (Ascii.eqb c comma); simpl; by rewrite IH.
Qed.

(** A quoted field is read up to its closing quote, commas included. *)
Lemma fieldsFrom_quoted_body cur field cs :
  freeOf quote field = true ->
  fieldsFrom true cur (list_ascii_of_string field ++ cs)
  = fieldsFrom true (cur +:+ field) cs.
Proof.
  revert cur. induction field as [|c field IH]; intros cur Hfield; simpl.
  - by rewrite append_empty_r.
  - simpl in Hfield. apply andb_prop in Hfield as [Hc Hfield].
    apply negb_true_iff in Hc. rewrite Hc, andb_false_r.
    rewrite IH by done. by rewrite append_assoc.
Qed.

Lemma list_ascii_of_string_append a b :
  list_ascii_of_string (a +:+ b) = list_ascii_of_string a ++ list_ascii_of_string b.
Proof.
  induction a as [|x a IH]; [done|]. rewrite append_cons. simpl. by rewrite IH.
Qed.

Lemma fieldsFrom_quoted_field cur field cs :
  freeOf quote field = true ->
  fieldsFrom false cur (list_ascii_of_string (quoted field) ++ cs)
  = fieldsFrom false (cur +:+ field) cs.
Proof.
  intros Hfield. unfold quoted.
  rewrite append_cons.
  change (list_ascii_of_string (String quote (field +:+ String quote "")))
    with (quote :: list_ascii_of_string (field +:+ String quote "")).
  rewrite list_ascii_of_string_append, <- app_comm_cons, <- app_assoc.
  change (fieldsFrom true cur
            (list_ascii_of_string field ++ list_ascii_of_string (String quote "") ++ cs)
          = fieldsFrom false (cur +:+ field) cs).
  by rewrite fieldsFrom_quoted_body.
Qed.

Lemma fieldsFrom_comma cur cs :
  fieldsFrom false cur (comma :: cs) = cur :: fieldsFrom false "" cs.
Proof. reflexivity. Qed.

Lemma fieldsFrom_quoted fields :
  fields <> [] ->
  Forall (fun field => freeOf quote field = true) fields ->
  fieldsFrom false "" (list_ascii_of_string (join (String comma "") (map quoted fields)))
  = fields.
Proof.
  induction fields as [|field fields IH]; [done|]. intros _ Hfree.
  apply Forall_cons in Hfree as [Hfield Hfields].
  destruct fields as [|next fields].
  - change (join (String comma "") (map quoted [field])) with (quoted field).
    rewrite <- (app_nil_r (list_ascii_of_string (quoted field))).
    by rewrite fieldsFrom_quoted_field.
  - change (map quoted (field :: next :: fields))
      with (quoted field :: quoted next :: map quoted fields).
    rewrite join_cons.
    change (quoted next :: map quoted fields) with (map quoted (next :: fields)).
    rewrite !list_ascii_of_string_append.
    rewrite fieldsFrom_quoted_field by done.
    change (list_ascii_of_string (String comma ""))
      with [comma].
    change ([comma] ++ ?l) with (comma :: l).
    rewrite fieldsFrom_comma, IH by done. reflexivity.
Qed.

Lemma splitFrom_whole sep piece s :
  freeOf sep s = true -> splitFrom sep piece s = [piece +:+ s].
Proof.
  revert piece. induction s as [|c s IH]; intros piece Hs; simpl.
  - by rewrite append_empty_r.
  - simpl in Hs. apply andb_prop in Hs as [Hc Hs].
    apply negb_true_iff in Hc. rewrite Hc, IH by done.
    by rewrite append_assoc.
Qed.

Lemma freeOf_join c sep fields :
  freeOf c sep = true ->
  Forall (fun field => freeOf c field = true) fields ->
  freeOf c (join sep fields) = true.
Proof.
  intros Hsep. induction fields as [|field fields IH]; intros Hfields; [done|].
  apply Forall_cons in Hfields as [Hfield Hfields].
  destruct fields as [|next fields]; [done|].
  rewrite join_cons, !freeOf_append, Hfield, Hsep. simpl. by apply IH.
Qed.

(** X1.  [parseCSV] returns one row per line, that is, one more than the
    text has newline characters (so it never returns an empty sheet, and
    fewer than two rows exactly for a text without newline), and every row
    has at least one field. *)
Theorem parseCSV_rows (csvText : string) :
  List.length (parseCSV csvText) = S (occurrences newline csvText)
  /\ Forall (fun row => row <> []) (parseCSV csvText).
Proof.
  unfold parseCSV, split. split.
  - by rewrite length_map, splitFrom_length.
  - apply Forall_map, Forall_forall. intros line _.
    rewrite parseLine_fieldsFrom. apply fieldsFrom_nonempty.
Qed.

(** X2.  Every line is parsed on its own: the sheet of two texts joined by
    a newline is the sheet of the first followed by the sheet of the
    second.  In particular a quote left open on one line does not reach
    the next, and a newline inside quotes still ends the row. *)
Theorem parseCSV_newline (a b : string) :
  parseCSV (a +:+ String newline b) = parseCSV a ++ parseCSV b.
Proof. unfold parseCSV, split. by rewrite splitFrom_append, map_app. Qed.

(** X3.  No field of a parsed sheet contains a double quote: quotes only
    switch the quoting state, doubled quotes included. *)
Theorem parseCSV_drops_quotes (csvText : string) :
  Forall (Forall (fun field => freeOf quote field = true)) (parseCSV csvText).
Proof.
  unfold parseCSV. apply Forall_map, Forall_forall. intros line _.
  rewrite parseLine_fieldsFrom. by apply fieldsFrom_quote_free.
Qed.

(** X4.  On a text without double quotes, joining the fields of each row
    with commas and the rows with newlines gives the text back. *)
Theorem parseCSV_plain_round_trip (csvText : string) :
  freeOf quote csvText = true ->
  join (String newline "") (map (join (String comma "")) (parseCSV csvText))
  = csvText.
Proof.
  intros Hfree. unfold parseCSV, split.
  rewrite map_map.
  rewrite (map_ext_Forall _ id).
  - by rewrite map_id, join_splitFrom.
  - eapply Forall_impl; [by apply (splitFrom_freeOf quote newline "" csvText)|].
    intros line Hline. simpl in Hline.
    rewrite parseLine_fieldsFrom, fieldsFrom_plain by done.
    apply join_splitFrom.
Qed.

Lemma parseCSV_plain_round_trip_witness :
  join (String newline "")
    (map (join (String comma ""))
       (parseCSV ("Title,European Vacation" +:+ String newline "1,Paris,,09:00,Food,Lunch")))
  = "Title,European Vacation" +:+ String newline "1,Paris,,09:00,Food,Lunch".
Proof. apply parseCSV_plain_round_trip. reflexivity. Defined.

(** X5.  A row written with every field in double quotes and commas in
    between is read back field by field, commas inside the fields
    included, as long as no field contains a double quote or a newline. *)
Theorem parseCSV_quoted_round_trip (fields : list string) :
  fields <> [] ->
  Forall (fun field => freeOf quote field = true /\ freeOf newline field = true) fields ->
  parseCSV (join (String comma "") (map quoted fields)) = [fields].
Proof.
  intros Hne Hfields.
  unfold parseCSV, split.
  rewrite splitFrom_whole.
  - simpl. rewrite append_empty_l, parseLine_fieldsFrom, fieldsFrom_quoted; [done..|].
    eapply Forall_impl; [exact Hfields|]. by intros field [? ?].
  - apply freeOf_join; [reflexivity|].
    apply Forall_map. eapply Forall_impl; [exact Hfields|].
    intros field [_ Hnl]. unfold quoted.
    rewrite append_cons. simpl. by rewrite freeOf_append, Hnl.
Qed.

Lemma parseCSV_quoted_round_trip_witness :
  parseCSV (join (String comma "") (map quoted ["1"; "Paris, France"; "Lunch"]))
  = [["1"; "Paris, France"; "Lunch"]].
Proof.
  apply parseCSV_quoted_round_trip; [done|].
  repeat constructor.
Defined.


Lemma length_append (a b : string) :
  String.length (a +:+ b) = (String.length a + String.length b)%nat.
Proof.
  induction a as [|x a IH]; [done|].
  rewrite append_cons, !length_cons, IH. reflexivity.
Qed.

Lemma fieldsFrom_accounts q cur s :
  (list_sum (map String.length (fieldsFrom q cur (list_ascii_of_string s)))
   + List.length (fieldsFrom q cur (list_ascii_of_string s))
   + occurrences quote s
   = String.length cur + 1 + String.length s)%nat.
Proof.
  revert q cur. induction s as [|c s IH]; intros q cur.
  - simpl. lia.
  - change (list_ascii_of_string (String c s)) with (c :: list_ascii_of_string s).
    rewrite length_cons.
    cbn [fieldsFrom occurrences].
    destruct (Ascii.eqb c quote).
    + specialize (IH (negb q) cur). lia.
    + destruct (Ascii.eqb c comma && negb q).
      * specialize (IH q ""). simpl in IH. simpl. lia.
      * specialize (IH q (cur +:+ String c "")).
        rewrite length_append in IH. simpl in IH. lia.
Qed.

(** X6.  Every character of a text is accounted for in the parsed sheet:
    in each row, the characters of the fields plus one separator between
    neighbouring fields plus the double quotes of the line make up the
    line.  Nothing but quotes (and the separating commas and newlines) is
    dropped. *)
Theorem parseCSV_accounts_for_characters (csvText : string) :
  Forall2 (fun line row =>
             (fieldChars row + occurrences quote line)%nat = String.length line)
    (split newline csvText) (parseCSV csvText).
Proof.
  unfold parseCSV.
  induction (split newline csvText) as [|line lines IH]; simpl; constructor; [|done].
  rewrite parseLine_fieldsFrom. unfold fieldChars.
  pose proof (fieldsFrom_accounts false "" line) as Hacc.
  pose proof (fieldsFrom_nonempty false "" (list_ascii_of_string line)) as Hne.
  destruct (fieldsFrom false "" (list_ascii_of_string line)); [done|].
  simpl in *. lia.
Qed.

(** ** A parsed sheet in the row filter *)

Lemma index_asRow row i :
  index (map Str row) i <> Num 0 /\ index (map Str row) i <> Bool false.
Proof.
  unfold index. revert i.
  induction row as [|cell row IH]; intros [|i]; simpl; first [done | apply IH].
Qed.

(** X7.  On a sheet of strings, such as [parseCSV] returns, the filter
    keeps exactly the rows after the first two whose day, city and
    description are present and not the empty string and whose day and
    city are not the header words. *)
Theorem filteredRows_of_strings (sheet : list (list string)) :
  filteredRows (asGrid sheet) = Normal (Reference.filterRows (asGrid sheet)).
Proof.
  rewrite filteredRows_usable.
  unfold Reference.filterRows_js, Reference.filterRows, asGrid. f_equal.
  apply filter_ext_in. intros row Hrow.
  rewrite skipn_map in Hrow. apply in_map_iff in Hrow as (cells & <- & _).
  apply usableRow_js_usableRow.
  repeat constructor; apply index_asRow.
Qed.

(** ** More on the duration calculator *)

Lemma Math_max_greatest t ts :
  Math_max t ts ∈ t :: ts /\ forall x, x ∈ t :: ts -> x <= Math_max t ts.
Proof.
  rewrite Math_max_foldr. induction ts as [|y ts [Hin Hub]]; simpl.
  - split; [apply list_elem_of_here|]. intros x ->%list_elem_of_singleton. lia.
  - split.
    + destruct (Z.max_spec y (foldr Z.max t ts)) as [[_ ->]|[_ ->]].
      * apply elem_of_cons in Hin as [->|Hin]; [apply list_elem_of_here|].
        by do 2 apply list_elem_of_further.
      * apply list_elem_of_further, list_elem_of_here.
    + intros x [->|[->|Hx]%elem_of_cons]%elem_of_cons.
      * specialize (Hub t (list_elem_of_here _ _)). lia.
      * lia.
      * specialize (Hub x (list_elem_of_further _ _ _ Hx)). lia.
Qed.

Lemma Math_min_least t ts :
  Math_min t ts ∈ t :: ts /\ forall x, x ∈ t :: ts -> Math_min t ts <= x.
Proof.
  rewrite Math_min_foldr. induction ts as [|y ts [Hin Hlb]]; simpl.
  - split; [apply list_elem_of_here|]. intros x ->%list_elem_of_singleton. lia.
  - split.
    + destruct (Z.min_spec y (foldr Z.min t ts)) as [[_ ->]|[_ ->]].
      * apply list_elem_of_further, list_elem_of_here.
      * apply elem_of_cons in Hin as [->|Hin]; [apply list_elem_of_here|].
        by do 2 apply list_elem_of_further.
    + intros x [->|[->|Hx]%elem_of_cons]%elem_of_cons.
      * specialize (Hlb t (list_elem_of_here _ _)). lia.
      * lia.
      * specialize (Hlb x (list_elem_of_further _ _ _ Hx)). lia.
Qed.

Lemma rawDifference_Permutation t ts t' ts' :
  t :: ts ≡ₚ t' :: ts' -> rawDifference t ts = rawDifference t' ts'.
Proof.
  intros Hperm. unfold rawDifference.
  destruct (Math_max_greatest t ts) as [Hmax Hmax_ub].
  destruct (Math_max_greatest t' ts') as [Hmax' Hmax_ub'].
  destruct (Math_min_least t ts) as [Hmin Hmin_lb].
  destruct (Math_min_least t' ts') as [Hmin' Hmin_lb'].
  rewrite Hperm in Hmax, Hmin. rewrite <- Hperm in Hmax', Hmin'.
  specialize (Hmax_ub _ Hmax'). specialize (Hmax_ub' _ Hmax).
  specialize (Hmin_lb _ Hmin'). specialize (Hmin_lb' _ Hmin).
  lia.
Qed.

(** The result in terms of the collected times alone. *)
Lemma calculateDayDuration_times items :
  calculateDayDuration items
  = match times (collectTimes items) with
    | [] => "0 hours"
    | t :: ts => formatDuration (overnight (rawDifference t ts))
    end.
Proof.
  unfold calculateDayDuration, calculateDayDuration_run.
  destruct items as [|item items]; [done|].
  by destruct (times (collectTimes (item :: items))).
Qed.

(** X8.  The duration of a day does not depend on the order of its items. *)
Theorem calculateDayDuration_Permutation (items items' : list ItineraryItem) :
  items ≡ₚ items' ->
  calculateDayDuration items = calculateDayDuration items'.
Proof.
  intros Hperm. rewrite !calculateDayDuration_times, !collectTimes_times.
  assert (omap (fun item => acceptedTime (timing item)) items
          ≡ₚ omap (fun item => acceptedTime (timing item)) items') as Htimes
    by by rewrite Hperm.
  destruct (omap _ items) as [|t ts], (omap _ items') as [|t' ts']; try done.
  - by apply Permutation_nil_cons in Htimes.
  - symmetry in Htimes. by apply Permutation_nil_cons in Htimes.
  - by rewrite (rawDifference_Permutation _ _ _ _ Htimes).
Qed.

Lemma calculateDayDuration_Permutation_witness :
  calculateDayDuration [visitAt "17:30"; visitAt "09:00"; visitAt "bad"]
  = calculateDayDuration [visitAt "09:00"; visitAt "17:30"; visitAt "bad"].
Proof. apply calculateDayDuration_Permutation, perm_swap. Defined.

Lemma omap_filter_accepted items :
  omap (fun item => acceptedTime (timing item)) (List.filter timingAccepted items)
  = omap (fun item => acceptedTime (timing item)) items.
Proof.
  induction items as [|item items IH]; [done|].
  simpl. destruct (timingAccepted item) eqn:Ht; unfold timingAccepted in Ht;
    destruct (acceptedTime (timing item)) eqn:Hacc; try done;
    simpl; rewrite ?Hacc; first [exact IH | f_equal; exact IH].
Qed.

(** X9.  Items whose timing the loop does not accept (no H:MM or HH:MM
    shape, hour above 23 or minute above 59) have no influence on the
    result: leaving them out gives the same duration. *)
Theorem calculateDayDuration_ignores_rejected (items : list ItineraryItem) :
  calculateDayDuration (List.filter timingAccepted items)
  = calculateDayDuration items.
Proof.
  by rewrite !calculateDayDuration_times, !collectTimes_times, omap_filter_accepted.
Qed.

Lemma length_omap_accepted items :
  List.length (omap (fun item => acceptedTime (timing item)) items)
  = List.length (List.filter timingAccepted items).
Proof.
  induction items as [|item items IH]; [done|].
  simpl. destruct (timingAccepted item) eqn:Ht; unfold timingAccepted in Ht;
    destruct (acceptedTime (timing item)); try done; simpl;
    first [exact IH | f_equal; exact IH].
Qed.

(** X10.  The calculator writes exactly one warning for each item it
    skips and none for the others. *)
Theorem calculateDayDuration_warnings (items : list ItineraryItem) :
  List.length (snd (calculateDayDuration_run items))
  = List.length (List.filter (fun item => negb (timingAccepted item)) items).
Proof.
  assert (List.length (console (collectTimes items))
          = List.length (List.filter (fun item => negb (timingAccepted item)) items))
    as Hconsole.
  { pose proof (collectTimes_accounts items) as Hacc.
    rewrite collectTimes_times, length_omap_accepted in Hacc.
    pose proof (filter_length timingAccepted items) as Hsplit. lia. }
  unfold calculateDayDuration_run.
  destruct items as [|item items]; [done|].
  by destruct (times (collectTimes (item :: items))).
Qed.

(** ** More on the meal detector *)

(** X11.  Detection ignores letter case: arguments whose texts agree after
    lower-casing give the same meals. *)
Theorem detectMealsInItem_case_insensitive (c d c' d' : value) :
  toLowerCase (ToString c') = toLowerCase (ToString c) ->
  toLowerCase (ToString d') = toLowerCase (ToString d) ->
  detectMealsInItem c' d' = detectMealsInItem c d.
Proof.
  intros Hc Hd. unfold detectMealsInItem.
  by rewrite !toLowerCase_append, Hc, Hd.
Qed.

Lemma detectMealsInItem_case_insensitive_witness :
  detectMealsInItem (Str "FOOD") (Str "Lunch AND Dinner")
  = detectMealsInItem (Str "food") (Str "lunch and dinner").
Proof. apply detectMealsInItem_case_insensitive; reflexivity. Defined.

Lemma detected_iff c d k :
  k ∈ detectMealsInItem c d
  <-> k ∈ mealKeywords
      /\ (includes (toLowerCase (ToString c)) k = true
          \/ includes (toLowerCase (ToString d)) k = true).
Proof.
  rewrite detectMealsInItem_filter, list_elem_of_In, filter_In, <- list_elem_of_In.
  split.
  - intros [Hk Hin]. split; [done|].
    destruct (mealKeywords_spaceFree k Hk) as [Hfree Hne].
    rewrite includes_mealText in Hin by done. by apply orb_prop.
  - intros [Hk Hin]. split; [done|].
    destruct (mealKeywords_spaceFree k Hk) as [Hfree Hne].
    rewrite includes_mealText by done. apply orb_true_iff. done.
Qed.

(** X12.  A keyword is detected exactly when it occurs in the lower-cased
    category or in the lower-cased description: the space put between the
    two never completes a keyword that neither of them contains. *)
Theorem detectMealsInItem_category_or_description (c d : value) (k : string) :
  k ∈ detectMealsInItem c d
  <-> k ∈ mealKeywords
      /\ (includes (toLowerCase (ToString c)) k = true
          \/ includes (toLowerCase (ToString d)) k = true).
Proof. apply detected_iff. Qed.

Lemma prefix_append k b : String.prefix k (k +:+ b) = true.
Proof.
  induction k as [|x k IH]; [by destruct b|].
  rewrite append_cons. simpl. by destruct (ascii_dec x x).
Qed.

Lemma includes_prefix s k : String.prefix k s = true -> includes s k = true.
Proof. intros Hpre. destruct s; cbn [includes]; by rewrite Hpre. Qed.

Lemma includes_append a k b : includes (a +:+ k +:+ b) k = true.
Proof.
  induction a as [|x a IH].
  - rewrite append_empty_l. apply includes_prefix, prefix_append.
  - rewrite append_cons. simpl. by rewrite IH, orb_true_r.
Qed.

(** X13.  Matching is by substring: a keyword is detected wherever it
    stands in the description, in any letter case and also inside a longer
    word. *)
Theorem detectMealsInItem_substring (c : value) (before word after k : string) :
  k ∈ mealKeywords ->
  toLowerCase word = k ->
  k ∈ detectMealsInItem c (Str (before +:+ word +:+ after)).
Proof.
  intros Hk Hword.
  apply detected_iff. split; [done|]. right.
  simpl. rewrite !toLowerCase_append, Hword. apply includes_append.
Qed.

Lemma detectMealsInItem_substring_witness :
  "lunch" ∈ detectMealsInItem (Str "Shopping") (Str ("Buy a " +:+ "Lunch" +:+ "box")).
Proof.
  apply (detectMealsInItem_substring _ _ "Lunch").
  - apply list_elem_of_further, list_elem_of_further, list_elem_of_here.
  - reflexivity.
Defined.

(** ** More on the day grouper *)

Lemma processItineraryData_run data rows r :
  filteredRows data = Normal rows ->
  processItineraryData data = Normal r ->
  Array_forEach groupRow rows ∅ = Normal (days r).
Proof.
  intros Hrows (rows' & Hrows' & Hrun & _)%processItineraryData_Normal.
  rewrite Hrows in Hrows'. by injection Hrows' as <-.
Qed.

(** X14.  In a returned itinerary the items of a bucket are the items of
    the filtered rows with the bucket's key, in the order of the rows. *)
Theorem processItineraryData_items_in_row_order
    (data rows : list (list value)) (r : ItineraryData) (k : string) (d : DayData) :
  filteredRows data = Normal rows ->
  processItineraryData data = Normal r ->
  days r !! k = Some d ->
  items d
  = map newItem
      (List.filter (fun row => String.eqb (ToString (index row 0)) k) rows).
Proof.
  intros Hrows Hr Hd.
  apply (groupRows_items rows (days r)); [|done].
  by apply (processItineraryData_run data).
Qed.

Lemma processItineraryData_items_in_row_order_witness :
  items dayOne
  = map newItem
      (List.filter (fun row => String.eqb (ToString (index row 0)) "1")
         [parisRow; lyonRow; romeRow]).
Proof.
  apply (processItineraryData_items_in_row_order sampleGrid _ sampleResult "1" dayOne).
  - reflexivity.
  - vm_compute. reflexivity.
  - vm_compute. reflexivity.
Defined.

(** X15.  In a returned itinerary the day keys are exactly the string
    forms of the day cells of the filtered rows, and every bucket holds at
    least one item. *)
Theorem processItineraryData_day_keys
    (data rows : list (list value)) (r : ItineraryData) (k : string) :
  filteredRows data = Normal rows ->
  processItineraryData data = Normal r ->
  (is_Some (days r !! k) <-> exists row, row ∈ rows /\ ToString (index row 0) = k)
  /\ (forall d, days r !! k = Some d -> items d <> []).
Proof.
  intros Hrows Hr.
  pose proof (processItineraryData_run _ _ _ Hrows Hr) as Hrun.
  assert (forall d, days r !! k = Some d ->
            exists row, row ∈ rows /\ ToString (index row 0) = k /\ items d <> [])
    as Hbucket.
  { intros d Hd.
    pose proof (groupRows_items _ _ _ _ Hrun Hd) as Hitems.
    rewrite (groupRows_bucket _ _ k Hrun) in Hd. unfold bucketOf in Hd.
    destruct (rowsOf k rows) as [|row rest] eqn:Hk; [done|].
    assert (row ∈ rowsOf k rows) as Hin by (rewrite Hk; apply list_elem_of_here).
    apply elem_of_rowsOf in Hin as [Hin Hkey].
    exists row. split_and!; [done..|]. by rewrite Hitems. }
  split; [split|].
  - intros [d Hd]. destruct (Hbucket d Hd) as (row & ? & ? & _). eauto.
  - intros (row & Hin & <-).
    destruct (groupRows_row_bucket _ _ _ Hrun Hin) as (d & Hd & _). by exists d.
  - intros d Hd. by destruct (Hbucket d Hd) as (_ & _ & _ & ?).
Qed.

Lemma processItineraryData_day_keys_witness :
  (is_Some (days sampleResult !! "2")
   <-> exists row, row ∈ [parisRow; lyonRow; romeRow] /\ ToString (index row 0) = "2")
  /\ (forall d, days sampleResult !! "2" = Some d -> items d <> []).
Proof.
  apply (processItineraryData_day_keys sampleGrid).
  - reflexivity.
  - vm_compute. reflexivity.
Defined.

(** X23.  In a returned itinerary every filtered row has become exactly
    one item: each bucket has as many items as there are filtered rows
    with its key, and all buckets together have as many items as there
    are filtered rows. *)
Theorem processItineraryData_item_counts
    (data rows : list (list value)) (r : ItineraryData) :
  filteredRows data = Normal rows ->
  processItineraryData data = Normal r ->
  totalItems (days r) = List.length rows
  /\ (forall k d, days r !! k = Some d ->
        List.length (items d)
        = List.length
            (List.filter (fun row => String.eqb (ToString (index row 0)) k) rows)).
Proof.
  intros Hrows Hr. split.
  - by apply (processItineraryData_total_items data).
  - intros k d Hd.
    pose proof (processItineraryData_run _ _ _ Hrows Hr) as Hrun.
    rewrite (groupRows_items _ _ _ _ Hrun Hd). apply length_map.
Qed.

Lemma processItineraryData_item_counts_witness :
  totalItems (days sampleResult) = List.length [parisRow; lyonRow; romeRow]
  /\ (forall k d, days sampleResult !! k = Some d ->
        List.length (items d)
        = List.length
            (List.filter (fun row => String.eqb (ToString (index row 0)) k)
               [parisRow; lyonRow; romeRow])).
Proof.
  apply (processItineraryData_item_counts sampleGrid).
  - reflexivity.
  - vm_compute. reflexivity.
Defined.

(** X16.  The call returns an itinerary when no filtered row has a day
    whose string form names a member of [Object.prototype]; as soon as one
    has, it throws the [TypeError] of reading [push] of [undefined]. *)
Theorem processItineraryData_returns_or_throws (data rows : list (list value)) :
  filteredRows data = Normal rows ->
  (Forall (fun row => ToString (index row 0) ∉ Object_prototype_keys) rows ->
   exists r, processItineraryData data = Normal r)
  /\ (Exists (fun row => ToString (index row 0) ∈ Object_prototype_keys) rows ->
      processItineraryData data
      = Throw (TypeError "Cannot read properties of undefined (reading 'push')")).
Proof.
  intros Hrows. unfold processItineraryData. rewrite Hrows. simpl. split.
  - intros Hkeys. rewrite Forall_forall in Hkeys.
    destruct (groupRows_returns rows ∅ Hkeys) as [grouped ->]. simpl. eauto.
  - intros (row & Hin & Hkey)%Exists_exists.
    rewrite (groupRows_throws rows ∅ row); [done| |done..].
    intros k _. apply lookup_empty.
Qed.

Lemma processItineraryData_returns_or_throws_witness :
  (exists r, processItineraryData sampleGrid = Normal r)
  /\ processItineraryData (sampleGrid ++ [inheritedKeyRow])
     = Throw (TypeError "Cannot read properties of undefined (reading 'push')").
Proof.
  split.
  - apply (processItineraryData_returns_or_throws sampleGrid [parisRow; lyonRow; romeRow]);
      [reflexivity|].
    apply (bool_decide_unpack _). vm_compute. exact I.
  - apply (processItineraryData_returns_or_throws _
             [parisRow; lyonRow; romeRow; inheritedKeyRow]); [reflexivity|].
    do 3 apply Exists_cons_tl. apply Exists_cons_hd. apply list_elem_of_here.
Defined.

(** ** Trimming and [formatTime] *)

Lemma trimEnd_idempotent s : trimEnd (trimEnd s) = trimEnd s.
Proof.
  induction s as [|c s IH]; [done|]. simpl.
  destruct (trimEnd s) as [|x t] eqn:Hs.
  - destruct (isWhiteSpace c) eqn:Hc; [done|]. simpl. by rewrite Hc.
  - change (trimEnd (String c (String x t)))
      with (match trimEnd (String x t) with
            | EmptyString => if isWhiteSpace c then EmptyString else String c EmptyString
            | u => String c u
            end).
    by rewrite IH.
Qed.

Lemma trimStart_head s :
  trimStart s = "" \/ exists c t, trimStart s = String c t /\ isWhiteSpace c = false.
Proof.
  induction s as [|c s IH]; simpl; [by left|].
  destruct (isWhiteSpace c) eqn:Hc; [done|]. right. eauto.
Qed.

Lemma trimEnd_head c t :
  isWhiteSpace c = false -> exists u, trimEnd (String c t) = String c u.
Proof.
  intros Hc. simpl. destruct (trimEnd t); [rewrite Hc|]; eauto.
Qed.

Lemma trim_idempotent s : trim (trim s) = trim s.
Proof.
  unfold trim.
  destruct (trimStart_head s) as [->|(c & t & -> & Hc)]; [done|].
  destruct (trimEnd_head c t Hc) as [u Hu].
  rewrite Hu. simpl trimStart. rewrite Hc, <- Hu. apply trimEnd_idempotent.
Qed.

(** X17.  What [formatTime] returns never has white space at either end:
    trimming it again changes nothing. *)
Theorem formatTime_trimmed (timeValue : value) :
  trim (formatTime timeValue) = formatTime timeValue.
Proof.
  unfold formatTime. destruct (truthy timeValue); simpl; [|done].
  apply trim_idempotent.
Qed.

(** X18.  In a returned itinerary every item's timing is already trimmed,
    and [formatTime] shows it unchanged, or shows "Time" when it is
    empty. *)
Theorem processItineraryData_timings
    (data : list (list value)) (r : ItineraryData) (k : string) (d : DayData)
    (item : ItineraryItem) :
  processItineraryData data = Normal r ->
  days r !! k = Some d ->
  item ∈ items d ->
  trim (timing item) = timing item
  /\ formatTime (Str (timing item))
     = if String.eqb (timing item) "" then "Time" else timing item.
Proof.
  intros (rows & _ & Hrun & _)%processItineraryData_Normal Hd Hitem.
  rewrite (groupRows_items _ _ _ _ Hrun Hd) in Hitem.
  apply list_elem_of_fmap in Hitem as (row & -> & _).
  assert (trim (timing (newItem row)) = timing (newItem row)) as Htrim
    by apply trim_idempotent.
  split; [done|].
  revert Htrim. generalize (timing (newItem row)). intros t Htrim.
  unfold formatTime. simpl.
  destruct (String.eqb t ""); simpl; done.
Qed.

Lemma processItineraryData_timings_witness :
  trim (timing (newItem lyonRow)) = timing (newItem lyonRow)
  /\ formatTime (Str (timing (newItem lyonRow)))
     = if String.eqb (timing (newItem lyonRow)) "" then "Time"
       else timing (newItem lyonRow).
Proof.
  apply (processItineraryData_timings sampleGrid sampleResult "1" dayOne).
  - vm_compute. reflexivity.
  - vm_compute. reflexivity.
  - apply list_elem_of_further, list_elem_of_here.
Defined.

(** ** Meal labels *)

Lemma append_eq_empty a b : a +:+ b = "" -> a = "" /\ b = "".
Proof. destruct a; [by rewrite append_empty_l | by rewrite append_cons]. Qed.

Lemma upperChar_nonempty c upper : upperChar c = Some upper -> upper <> "".
Proof.
  unfold upperChar. repeat case_match; intros [= <-]; done.
Qed.

Lemma capitalize_empty meal : capitalize meal = Some "" -> meal = "".
Proof.
  destruct meal as [|c rest]; [done|]. simpl.
  destruct (upperChar c) as [upper|] eqn:Hc; [|done].
  intros [= Hempty]. apply append_eq_empty in Hempty as [-> _].
  by apply upperChar_nonempty in Hc.
Qed.

Lemma capitalizeAll_cons meal rest caps :
  capitalizeAll (meal :: rest) = Some caps ->
  exists first others,
    caps = first :: others /\ capitalize meal = Some first
    /\ capitalizeAll rest = Some others.
Proof.
  simpl. destruct (capitalize meal) as [first|]; [|done].
  destruct (capitalizeAll rest) as [others|]; [|done].
  intros [= <-]. eauto.
Qed.

(** A joined list is empty only for no element or one empty element. *)
Lemma join_empty sep words :
  sep <> "" -> join sep words = "" -> words = [] \/ words = [""].
Proof.
  intros Hsep. destruct words as [|w [|w' words]]; simpl.
  - by left.
  - intros ->. by right.
  - intros Hjoin. change (w +:+ sep +:+ join sep (w' :: words) = "") in Hjoin.
    apply append_eq_empty in Hjoin as [_ Hjoin].
    by apply append_eq_empty in Hjoin as [? _].
Qed.

(** X19.  The meals line of a PDF day page and [formatMealsText] give the
    same text for every meal list but one: for the list holding just the
    empty string the page falls back to "No meals detected", while
    [formatMealsText] returns the empty string. *)
Theorem dayPageMeals_formatMealsText (d : DayData) :
  (allMeals d <> [""] -> dayPageMeals d = formatMealsText (allMeals d))
  /\ (allMeals d = [""] ->
      dayPageMeals d = Some "No meals detected"
      /\ formatMealsText (allMeals d) = Some "").
Proof.
  unfold dayPageMeals, mealsLine, formatMealsText. split.
  - intros Hmeals. destruct (allMeals d) as [|meal rest]; [done|].
    destruct (capitalizeAll (meal :: rest)) as [caps|] eqn:Hcaps; [|done].
    simpl truthy.
    destruct (String.eqb (join " & " caps) "") eqn:Hjoin; simpl; [|done].
    apply String.eqb_eq in Hjoin.
    destruct (join_empty " & " caps) as [->| ->]; [done..| |].
    + by apply capitalizeAll_cons in Hcaps as (? & ? & ? & _).
    + apply capitalizeAll_cons in Hcaps as (first & others & [= <- <-] & Hfirst & Hrest).
      apply capitalize_empty in Hfirst as ->.
      by destruct rest as [|m rest]; [|apply capitalizeAll_cons in Hrest as (? & ? & ? & _)].
  - by intros ->.
Qed.

Lemma dayPageMeals_formatMealsText_witness :
  dayPageMeals dayOne = formatMealsText (allMeals dayOne)
  /\ dayPageMeals {| day := Str "1"; city := Str "Paris"; date := Undefined;
                     items := []; allMeals := [""] |}
     = Some "No meals detected"
  /\ formatMealsText [""] = Some "".
Proof.
  split.
  - by apply (proj1 (dayPageMeals_formatMealsText dayOne)).
  - by apply (proj2 (dayPageMeals_formatMealsText
                       {| day := Str "1"; city := Str "Paris"; date := Undefined;
                          items := []; allMeals := [""] |})).
Defined.

Lemma capitalize_keyword k :
  k ∈ mealKeywords -> exists label, capitalize k = Some label /\ label ∈ mealLabels.
Proof.
  unfold mealKeywords, mealLabels. rewrite !elem_of_cons, elem_of_nil.
  intros [->|[->|[->|[->|[]]]]]; eexists; (split; [reflexivity|]);
    rewrite !elem_of_cons; tauto.
Qed.

Lemma capitalizeAll_keywords meals :
  Forall (fun m => m ∈ mealKeywords) meals ->
  exists labels,
    capitalizeAll meals = Some labels
    /\ List.length labels = List.length meals
    /\ Forall (fun label => label ∈ mealLabels) labels.
Proof.
  induction 1 as [|k meals Hk _ (labels & Hlabels & Hlen & Hall)]; simpl.
  - by exists [].
  - destruct (capitalize_keyword k Hk) as (label & -> & Hlabel).
    rewrite Hlabels. exists (label :: labels). simpl. split_and!; [done|by rewrite Hlen|].
    by constructor.
Qed.

Lemma join_label_first label labels :
  label ∈ mealLabels ->
  join " & " (label :: labels) <> "" /\ join " & " (label :: labels) <> "No meals detected".
Proof.
  unfold mealLabels. rewrite !elem_of_cons, elem_of_nil.
  intros [->|[->|[->|[->|[]]]]]; destruct labels as [|next labels];
    (split; [done|]); try done; rewrite join_cons, append_cons; done.
Qed.

Lemma bucket_mealsOK data r k d :
  processItineraryData data = Normal r -> days r !! k = Some d -> mealsOK d.
Proof.
  intros (rows & _ & Hrun & _)%processItineraryData_Normal Hd.
  rewrite (groupRows_bucket _ _ k Hrun) in Hd. unfold bucketOf in Hd.
  destruct (rowsOf k rows) as [|row rest]; [done|].
  injection Hd as <-.
  apply (fold_absorb_mealsOK (row :: rest)), newDay_mealsOK.
Qed.

Lemma bucket_meals_keywords data r k d :
  processItineraryData data = Normal r -> days r !! k = Some d ->
  Forall (fun m => m ∈ mealKeywords) (allMeals d).
Proof.
  intros Hr Hd. destruct (bucket_mealsOK _ _ _ _ Hr Hd) as [_ Hmeals].
  apply Forall_forall. intros m Hm.
  apply Hmeals in Hm as (item & _ & Hm).
  rewrite detectMealsInItem_filter, list_elem_of_In, filter_In in Hm.
  apply list_elem_of_In, Hm.
Qed.

(** X20.  For every bucket of a returned itinerary [formatMealsText]
    yields a text, the PDF day page prints the same text, and the text is
    "No meals detected" exactly when the day has no meals; the overview
    table prints the same text too, except that a day without meals reads
    "No meals specified" there. *)
Theorem processItineraryData_meal_labels
    (data : list (list value)) (r : ItineraryData) (k : string) (d : DayData) :
  processItineraryData data = Normal r ->
  days r !! k = Some d ->
  exists text,
    formatMealsText (allMeals d) = Some text
    /\ dayPageMeals d = Some text
    /\ text <> ""
    /\ (text = "No meals detected" <-> allMeals d = [])
    /\ overviewMeals d
       = Some (if bool_decide (allMeals d = []) then "No meals specified" else text).
Proof.
  intros Hr Hd.
  pose proof (bucket_meals_keywords _ _ _ _ Hr Hd) as Hkeys.
  unfold dayPageMeals, overviewMeals, mealsLine, formatMealsText.
  destruct (capitalizeAll_keywords _ Hkeys) as (labels & -> & Hlen & Hlabels).
  destruct (allMeals d) as [|meal rest].
  - destruct labels; [|done]. exists "No meals detected". by split_and!.
  - destruct labels as [|label labels]; [done|].
    apply Forall_cons in Hlabels as [Hlabel _].
    destruct (join_label_first label labels Hlabel) as [Hne Hdefault].
    exists (join " & " (label :: labels)).
    assert (truthy (Str (join " & " (label :: labels))) = true) as ->.
    { simpl. apply negb_true_iff. by apply String.eqb_neq. }
    split_and!; try done.
Qed.

Lemma processItineraryData_meal_labels_witness :
  exists text,
    formatMealsText (allMeals dayOne) = Some text
    /\ dayPageMeals dayOne = Some text
    /\ text <> ""
    /\ (text = "No meals detected" <-> allMeals dayOne = [])
    /\ overviewMeals dayOne
       = Some (if bool_decide (allMeals dayOne = []) then "No meals specified" else text).
Proof.
  apply (processItineraryData_meal_labels sampleGrid sampleResult "1" dayOne).
  - vm_compute. reflexivity.
  - vm_compute. reflexivity.
Defined.

(** ** Category icons *)

Lemma lowerChar_idempotent c : lowerChar (lowerChar c) = lowerChar c.
Proof. by destruct c as [[] [] [] [] [] [] [] []]. Qed.

Lemma toLowerCase_idempotent s : toLowerCase (toLowerCase s) = toLowerCase s.
Proof.
  induction s as [|c s IH]; [done|]. simpl. by rewrite lowerChar_idempotent, IH.
Qed.

(** A lower-cased string can only name a member of [Object.prototype]
    that is written without capitals. *)
Lemma lowered_prototype_key s :
  toLowerCase s ∈ Object_prototype_keys -> toLowerCase s ∈ lowerCaseMembers.
Proof.
  intros Hin.
  assert (toLowerCase (toLowerCase s) = toLowerCase s) as Hidem
    by apply toLowerCase_idempotent.
  revert Hin Hidem. generalize (toLowerCase s). intros k.
  unfold Object_prototype_keys, lowerCaseMembers.
  rewrite !elem_of_cons, elem_of_nil.
  intros [->|[->|[->|[->|[->|[->|[->|[->|[->|[->|[->|[->|[]]]]]]]]]]]]] Hidem;
    try discriminate Hidem; tauto.
Qed.

Lemma categoryIcons_lookup k svg :
  categoryIcons !! k = Some svg ->
  svg ∈ [sightseeingIcon; foodIcon; transportationIcon; accommodationIcon; activityIcon].
Proof.
  intros Hk. unfold categoryIcons in Hk.
  apply elem_of_list_to_map_2 in Hk.
  rewrite !elem_of_cons, elem_of_nil in Hk. rewrite !elem_of_cons.
  destruct Hk as [[= _ ->]|[[= _ ->]|[[= _ ->]|[[= _ ->]|[[= _ ->]|[]]]]]]; auto 10.
Qed.

Lemma icon_truthy svg :
  svg ∈ [sightseeingIcon; foodIcon; transportationIcon; accommodationIcon; activityIcon] ->
  truthy (Str svg) = true /\ svg <> fallbackIcon.
Proof.
  rewrite !elem_of_cons, elem_of_nil.
  intros [->|[->|[->|[->|[->|[]]]]]]; (split; [reflexivity|]);
    intros Heq; apply (f_equal String.length) in Heq; vm_compute in Heq; discriminate.
Qed.

(** X21.  [getCategoryIcon] does not depend on the letter case of the
    category. *)
Theorem getCategoryIcon_case_insensitive (category category' : string) :
  toLowerCase category' = toLowerCase category ->
  getCategoryIcon (toLowerCase category') = getCategoryIcon category
  /\ getCategoryIcon category' = getCategoryIcon category.
Proof.
  intros Hsame. unfold getCategoryIcon.
  by rewrite toLowerCase_idempotent, Hsame.
Qed.

Lemma getCategoryIcon_case_insensitive_witness :
  getCategoryIcon (toLowerCase "FOOD") = getCategoryIcon "Food"
  /\ getCategoryIcon "FOOD" = getCategoryIcon "Food".
Proof. by apply getCategoryIcon_case_insensitive. Defined.

(** X22.  [getCategoryIcon] returns icon markup, never empty, for every
    category but those that read "constructor" or "__proto__" in lower
    case; for these the lookup in the object literal finds the member of
    [Object.prototype] and that member is returned instead of a string.
    The markup is the generic icon exactly when the lower-cased category
    is none of the five listed ones. *)
Theorem getCategoryIcon_result (category : string) :
  (toLowerCase category ∈ lowerCaseMembers ->
   getCategoryIcon category = PrototypeMember (toLowerCase category))
  /\ (toLowerCase category ∉ lowerCaseMembers ->
      exists svg,
        getCategoryIcon category = Markup svg
        /\ svg ∈ allIcons /\ svg <> ""
        /\ (svg = fallbackIcon
            <-> toLowerCase category
                ∉ ["sightseeing"; "food"; "transportation"; "accommodation"; "activity"])).
Proof.
  unfold getCategoryIcon, Get. split.
  - unfold lowerCaseMembers. rewrite !elem_of_cons, elem_of_nil.
    by intros [->|[->|[]]].
  - intros Hnot.
    destruct (categoryIcons !! toLowerCase category) as [svg|] eqn:Hlook.
    + pose proof (categoryIcons_lookup _ _ Hlook) as Hsvg.
      destruct (icon_truthy svg Hsvg) as [Htruthy Hdiff].
      rewrite Htruthy. exists svg. split_and!; [done| | |].
      * change allIcons
          with ([sightseeingIcon; foodIcon; transportationIcon; accommodationIcon;
                 activityIcon] ++ [fallbackIcon]).
        apply elem_of_app. by left.
      * intros ->. by simpl in Htruthy.
      * split; [done|]. intros Hnone. exfalso. apply Hnone.
        unfold categoryIcons in Hlook.
        apply elem_of_list_to_map_2 in Hlook.
        rewrite !elem_of_cons, elem_of_nil in Hlook. rewrite !elem_of_cons.
        destruct Hlook as [[= Hk _]|[[= Hk _]|[[= Hk _]|[[= Hk _]|[[= Hk _]|[]]]]]];
          rewrite Hk; auto 10.
    + destruct (bool_decide _) eqn:Hproto.
      * apply bool_decide_eq_true in Hproto. by apply lowered_prototype_key in Hproto.
      * exists fallbackIcon. split_and!; [done| |done|].
        -- change allIcons
             with ([sightseeingIcon; foodIcon; transportationIcon; accommodationIcon;
                    activityIcon] ++ [fallbackIcon]).
           apply elem_of_app. right. apply list_elem_of_here.
        -- split; [|done]. intros _ Hin.
           rewrite !elem_of_cons, elem_of_nil in Hin.
           destruct Hin as [Hk|[Hk|[Hk|[Hk|[Hk|[]]]]]]; by rewrite Hk in Hlook.
Qed.

Lemma getCategoryIcon_result_witness :
  getCategoryIcon "Constructor" = PrototypeMember "constructor"
  /\ exists svg,
       getCategoryIcon "Shopping" = Markup svg
       /\ svg ∈ allIcons /\ svg <> ""
       /\ (svg = fallbackIcon
           <-> toLowerCase "Shopping"
               ∉ ["sightseeing"; "food"; "transportation"; "accommodation"; "activity"]).
Proof.
  split.
  - apply (proj1 (getCategoryIcon_result "Constructor")).
    apply list_elem_of_here.
  - apply (proj2 (getCategoryIcon_result "Shopping")).
    apply (bool_decide_unpack _). vm_compute. exact I.
Defined.
